(** * Waypoint-tracking PID controller

    A shallow embedding of [ISS/algorithms/control/pid_wpt_tracker.py]:
    the two PID regulators ([PIDLongitudinalController],
    [PIDLateralController]) and the tracker that owns them
    ([VehiclePIDController]).

    Numbers are IEEE-754 binary64 values (Rocq's primitive [float]), which
    is what a Python [float] and a [numpy.float64] are; the speeds, poses
    and trajectory points handed to the controllers are Python floats.
    Methods are computations in a state-and-exception monad: a Python call
    either returns a value or raises, and the attribute updates made
    before a [raise] stay visible afterwards.  Python lists are objects in
    a store, so that two references to one list see each other's updates.
    The [math] functions go through CPython's wrapper to a C library that
    the development takes as a parameter; numpy runs with its default
    error state, in which a floating-point division by zero warns and
    carries on. *)

From Stdlib Require Import ZArith Floats List Bool Lia.
From stdpp Require Import base option list gmap.

(* Decimal literals such as 0.1 denote the nearest binary64 value, as they
   do in Python. *)
Set Warnings "-inexact-float".

(** ** The Python runtime fragment the source relies on *)

Module Py.

Inductive exn : Set :=
| ZeroDivisionError
| IndexError
| ValueError.

Inductive outcome (A : Type) : Type :=
| Return (a : A)
| Raise (e : exn).
Arguments Return {A} a.
Arguments Raise {A} e.

(** A method body over the object state [S]: the outcome of the call
    and the state it leaves behind, also when it raises. *)
Definition M (S A : Type) : Type := S -> outcome A * S.

Definition ret {S A} (a : A) : M S A := fun s => (Return a, s).
Definition raise {S A} (e : exn) : M S A := fun s => (Raise e, s).
Definition bind {S A B} (m : M S A) (k : A -> M S B) : M S B :=
  fun s => match m s with
           | (Return a, s') => k a s'
           | (Raise e, s') => (Raise e, s')
           end.
Definition get {S} : M S S := fun s => (Return s, s).
Definition modify {S} (f : S -> S) : M S unit := fun s => (Return tt, f s).

(** Run a method of an owned object inside the owner's state. *)
Definition zoom {S T A} (proj : S -> T) (inj : T -> S -> S) (m : M T A) : M S A :=
  fun s => let '(o, t') := m (proj s) in (o, inj t' s).

(** [a / b] on two Python floats: CPython's [float_div] raises on a zero
    divisor (of either sign) before dividing.  Both divisions of the source
    are of this kind: the buffers hold differences of the float speeds,
    respectively results of [math.acos], and [dt] is a float. *)
Definition float_truediv {S} (a b : float) : M S float :=
  if (b =? 0)%float then raise ZeroDivisionError else ret (a / b)%float.

(** [sum(xs)]: the accumulator starts at the integer [0] and takes the
    items left to right.  (CPython 3.12 adds a compensation term to this
    loop; it can change how a finite sum is rounded, which nothing
    below depends on.) *)
Definition sum (xs : list float) : float := fold_left PrimFloat.add xs 0%float.

Definition len {A} (xs : list A) : Z := Z.of_nat (length xs).

(** [xs[i]] with Python's negative indices. *)
Definition getitem {S A} (xs : list A) (i : Z) : M S A :=
  let j := (if i <? 0 then i + len xs else i)%Z in
  if ((0 <=? j) && (j <? len xs))%Z then
    match nth_error xs (Z.to_nat j) with
    | Some a => ret a
    | None => raise IndexError
    end
  else raise IndexError.

(** The C library behind the [math] module.  It is not part of the
    repository: the development is parametric in it. *)
Record libm : Set := {
  c_cos : float -> float;
  c_sin : float -> float;
  c_acos : float -> float
}.

(** CPython's [math_1] wrapper (mathmodule.c, with [can_overflow = 0]),
    through which [math.cos], [math.sin] and [math.acos] call libm. *)
Definition math_1 {S} (f : float -> float) (x : float) : M S float :=
  let r := f x in
  if is_nan r && negb (is_nan x) then raise ValueError
  else if is_infinity r && is_finite x then raise ValueError
  else ret r.

Definition math_cos {S} (lm : libm) : float -> M S float := math_1 (c_cos lm).
Definition math_sin {S} (lm : libm) : float -> M S float := math_1 (c_sin lm).
Definition math_acos {S} (lm : libm) : float -> M S float := math_1 (c_acos lm).

End Py.

Export Py.

Notation "'let*' x ':=' m 'in' k" := (bind m (fun x => k))
  (at level 10, x name, m at level 100, k at level 200, only parsing).
Notation "'let*' ' p ':=' m 'in' k" := (bind m (fun x => let 'p := x in k))
  (at level 10, p pattern, m at level 100, k at level 200, only parsing).
Notation "m ';;' k" := (bind m (fun _ => k))
  (at level 100, k at level 200, right associativity, only parsing).

(** ** The numpy kernels the source calls, on float64 scalars *)

Module Np.

(** [np.clip(x, lo, hi)]: the [clip] ufunc computes
    [_NPY_MIN(_NPY_MAX(x, lo), hi)] where [_NPY_MAX(a, b)] is [a] when [a]
    is NaN or [a > b], and [b] otherwise ([_NPY_MIN] alike, with [a < b]).
    A NaN value passes through. *)
Definition npy_max (a b : float) : float :=
  if is_nan a then a else if (b <? a)%float then a else b.
Definition npy_min (a b : float) : float :=
  if is_nan a then a else if (a <? b)%float then a else b.
Definition clip (x lo hi : float) : float := npy_min (npy_max x lo) hi.

Definition vec3 : Set := float * float * float.

(** [np.dot] of two vectors of three float64, summed left to right. *)
Definition dot (a b : vec3) : float :=
  let '(a0, a1, a2) := a in
  let '(b0, b1, b2) := b in
  (a0 * b0 + a1 * b1 + a2 * b2)%float.

(** [np.linalg.norm] of a real vector is [sqrt(dot(x, x))]. *)
Definition norm (a : vec3) : float := sqrt (dot a a).
Definition norm2 (a : float * float) : float :=
  let '(a0, a1) := a in sqrt (a0 * a0 + a1 * a1)%float.

Definition cross (a b : vec3) : vec3 :=
  let '(a0, a1, a2) := a in
  let '(b0, b1, b2) := b in
  (a1 * b2 - a2 * b1, a2 * b0 - a0 * b2, a0 * b1 - a1 * b0)%float.

(** [a / b] on float64 scalars follows IEEE-754: a zero divisor gives
    an infinity or a NaN (with a warning), never an exception. *)
Definition divide (a b : float) : float := (a / b)%float.

End Np.

(** ** [collections.deque(maxlen=10)] *)

Module Deque.

Definition maxlen : nat := 10.

Definition empty : list float := [].

(** [d.append(x)]: the item goes to the right end; a deque that then
    exceeds [maxlen] drops its leftmost item. *)
Definition append (x : float) (d : list float) : list float :=
  let d' := d ++ [x] in
  if (maxlen <? length d')%nat then tl d' else d'.

End Deque.

(** ** Configuration and the shared PID arithmetic *)

(** The keyword arguments of the two controller constructors, as the
    dictionaries [args_lateral] and [args_longitudinal] carry them: a key
    that is absent is [None]. *)
Record pid_args : Set := {
  K_P : option float;
  K_D : option float;
  K_I : option float;
  output_max : option float;
  output_min : option float;
  dt : option float
}.

(** [not args]: [None] and the empty dictionary are both falsy. *)
Definition falsy (args : option pid_args) : bool :=
  match args with
  | None => true
  | Some a =>
      match K_P a, K_D a, K_I a, output_max a, output_min a, dt a with
      | None, None, None, None, None, None => true
      | _, _, _, _, _, _ => false
      end
  end.

(** Lines 125-130 and 195-200 of the source, the same text in both
    controllers: the derivative and integral estimates read off the
    history buffer once the new sample is in. *)
Definition estimates {S} (buffer : list float) (dt : float) : M S (float * float) :=
  if (2 <=? len buffer)%Z then
    let* last := getitem buffer (-1) in
    let* second_last := getitem buffer (-2) in
    let* _de := float_truediv (last - second_last)%float dt in
    let _ie := (Py.sum buffer * dt)%float in
    ret (_de, _ie)
  else ret (0, 0)%float.

(** ** PIDLongitudinalController *)

Module PIDLongitudinalController.

Record t : Set := mk {
  _K_P : float;
  _K_D : float;
  _K_I : float;
  _output_max : float;
  _output_min : float;
  _dt : float;
  _error_buffer : list float
}.

Definition set_buffer (b : list float) (self : t) : t :=
  mk (_K_P self) (_K_D self) (_K_I self) (_output_max self) (_output_min self)
     (_dt self) b.

Definition __init__ (a : pid_args) : outcome t :=
  Return (mk (default 1 (K_P a)) (default 0 (K_D a)) (default 0 (K_I a))
             (default 1 (output_max a)) (default 0 (output_min a))
             (default 0.1 (dt a)) Deque.empty)%float.

Definition reset : M t unit := modify (set_buffer Deque.empty).

Definition _pid_control (current_speed target_speed : float) : M t float :=
  let error := (target_speed - current_speed)%float in
  modify (fun self => set_buffer (Deque.append error (_error_buffer self)) self) ;;
  let* self := get in
  let* '(_de, _ie) := estimates (_error_buffer self) (_dt self) in
  ret (Np.clip (_K_P self * error + _K_D self * _de + _K_I self * _ie)%float
               (_output_min self) (_output_max self)).

Definition run_step (current_speed target_speed : float) : M t float :=
  _pid_control current_speed target_speed.

Definition change_parameters (K_P K_I K_D dt : float) : M t unit :=
  modify (fun self =>
    mk K_P K_D K_I (_output_max self) (_output_min self) dt (_error_buffer self)).

End PIDLongitudinalController.

(** ** PIDLateralController *)

Module PIDLateralController.

Record t : Set := mk {
  _K_P : float;
  _K_D : float;
  _K_I : float;
  _output_max : float;
  _output_min : float;
  _dt : float;
  _e_buffer : list float;
  lat_error : list float
}.

Definition set_buffer (b : list float) (self : t) : t :=
  mk (_K_P self) (_K_D self) (_K_I self) (_output_max self) (_output_min self)
     (_dt self) b (lat_error self).

Definition set_log (l : list float) (self : t) : t :=
  mk (_K_P self) (_K_D self) (_K_I self) (_output_max self) (_output_min self)
     (_dt self) (_e_buffer self) l.

Definition __init__ (a : pid_args) : outcome t :=
  Return (mk (default 0.2 (K_P a)) (default 0 (K_D a)) (default 0 (K_I a))
             (default 1 (output_max a)) (default (-1) (output_min a))
             (default 0.1 (dt a)) Deque.empty [])%float.

Definition reset : M t unit := modify (set_buffer Deque.empty).

(** [vehicle_location] is the triple [(x, y, heading)], [waypoint] the
    position [(waypoint[0], waypoint[1])] of the target. *)
Definition _pid_control (lm : libm) (vehicle_location : float * float * float)
    (waypoint : float * float) : M t float :=
  let '(vx, vy, heading) := vehicle_location in
  let '(w0, w1) := waypoint in
  let* c := math_cos lm heading in
  let* s := math_sin lm heading in
  let v_vec : Np.vec3 := (c, s, 0%float) in
  let w_vec : Np.vec3 := ((w0 - vx)%float, (w1 - vy)%float, 0%float) in
  let* _dot :=
    math_acos lm
      (Np.clip (Np.divide (Np.dot w_vec v_vec)
                          (Np.norm w_vec * Np.norm v_vec)%float) (-1) 1)%float in
  let _cross := Np.cross v_vec w_vec in
  let _dot := if (snd _cross <? 0)%float then (_dot * (-1))%float else _dot in
  modify (fun self => set_buffer (Deque.append _dot (_e_buffer self)) self) ;;
  modify (fun self => set_log (lat_error self ++ [_dot]) self) ;;
  let* self := get in
  let* '(_de, _ie) := estimates (_e_buffer self) (_dt self) in
  let steering_from_yaw :=
    Np.clip (_K_P self * _dot + _K_D self * _de + _K_I self * _ie)%float
            (_output_min self) (_output_max self) in
  ret steering_from_yaw.

Definition run_step (lm : libm) (vehicle_location : float * float * float)
    (waypoint : float * float) : M t float :=
  _pid_control lm vehicle_location waypoint.

Definition change_parameters (K_P K_I K_D dt : float) : M t unit :=
  modify (fun self =>
    mk K_P K_D K_I (_output_max self) (_output_min self) dt
       (_e_buffer self) (lat_error self)).

End PIDLateralController.

(** ** VehiclePIDController *)

(** A trajectory point [(x, y, heading, target_speed)] of Python floats;
    the source reads [traj_point[0]], [traj_point[1]] and [traj_point[3]]. *)
Record Waypoint : Set := {
  wp_x : float;
  wp_y : float;
  wp_heading : float;
  wp_target_speed : float
}.

(** The pose handed to [run_step]: an object with four float attributes. *)
Module VehicleLocation.

Record t : Set := mk {
  x : float;
  y : float;
  heading_angle : float;
  velocity : float
}.

End VehicleLocation.

Module VehiclePIDController.

Module Lon := PIDLongitudinalController.
Module Lat := PIDLateralController.

(** A reference to a list object of the Python store. *)
Definition ref : Set := nat.

Record t : Set := mk {
  _look_ahead : float;
  _lon_controller : Lon.t;
  _lat_controller : Lat.t;
  traj : ref;
  goal : option Waypoint;
  waypoint_index : Z
}.

(** The tracker together with the list objects it and its caller can
    reach. *)
Record world : Type := World {
  store : gmap nat (list Waypoint);
  self : t
}.

Definition deref (st : gmap nat (list Waypoint)) (r : ref) : list Waypoint :=
  default [] (st !! r).

(** The list [self.traj] refers to. *)
Definition the_traj (w : world) : list Waypoint := deref (store w) (traj (self w)).

Definition set_index (i : Z) (w : world) : world :=
  World (store w)
    (mk (_look_ahead (self w)) (_lon_controller (self w)) (_lat_controller (self w))
        (traj (self w)) (goal (self w)) i).

Definition set_traj_ref (r : ref) (w : world) : world :=
  World (store w)
    (mk (_look_ahead (self w)) (_lon_controller (self w)) (_lat_controller (self w))
        r (goal (self w)) (waypoint_index (self w))).

Definition set_lon (c : Lon.t) (w : world) : world :=
  World (store w)
    (mk (_look_ahead (self w)) c (_lat_controller (self w))
        (traj (self w)) (goal (self w)) (waypoint_index (self w))).

Definition set_lat (c : Lat.t) (w : world) : world :=
  World (store w)
    (mk (_look_ahead (self w)) (_lon_controller (self w)) c
        (traj (self w)) (goal (self w)) (waypoint_index (self w))).

Definition set_store (st : gmap nat (list Waypoint)) (w : world) : world :=
  World st (self w).

Definition lon {A} : M Lon.t A -> M world A :=
  zoom (fun w => _lon_controller (self w)) set_lon.
Definition lat {A} : M Lat.t A -> M world A :=
  zoom (fun w => _lat_controller (self w)) set_lat.

(** A list display [[...]] evaluated by any code: a new object. *)
Definition new_list (l : list Waypoint) (st : gmap nat (list Waypoint))
    : ref * gmap nat (list Waypoint) :=
  let r := fresh (dom st) in (r, <[r := l]> st).

Definition default_lateral : pid_args :=
  {| K_P := Some 2; K_I := Some 0; K_D := Some 0.2;
     output_max := Some 1; output_min := Some (-1); dt := Some 0.1 |}%float.
Definition default_longitudinal : pid_args :=
  {| K_P := Some 2; K_I := Some 0; K_D := Some 0.1;
     output_max := Some 1; output_min := Some 0; dt := Some 0.1 |}%float.

Definition __init__ (args_lateral args_longitudinal : option pid_args)
    (look_ahead : float) (st : gmap nat (list Waypoint)) : outcome world :=
  let args_lateral :=
    if falsy args_lateral then default_lateral
    else default default_lateral args_lateral in
  let args_longitudinal :=
    if falsy args_longitudinal then default_longitudinal
    else default default_longitudinal args_longitudinal in
  match Lon.__init__ args_longitudinal with
  | Raise e => Raise e
  | Return lonc =>
      match Lat.__init__ args_lateral with
      | Raise e => Raise e
      | Return latc =>
          let '(r, st') := new_list [] st in
          Return (World st' (mk look_ahead lonc latc r None 0))
      end
  end.

Definition reset : M world unit :=
  modify (fun w => set_store (<[traj (self w) := []]> (store w)) w) ;;
  modify (set_index 0) ;;
  lon Lon.reset ;;
  lat Lat.reset.

Definition set_traj (traj : ref) : M world unit :=
  modify (set_traj_ref traj) ;;
  modify (set_index 0).

(** The [while] loop of [run_step] (lines 62-67).  [fuel] bounds the
    number of iterations; [run_step] passes the number of indices left
    below [len(self.traj) - 1], which the loop cannot exceed. *)
Fixpoint advance (fuel : nat) (current_location : float * float * float)
    : M world unit :=
  match fuel with
  | O => ret tt
  | S fuel' =>
      let* w := get in
      if (waypoint_index (self w) <? len (the_traj w) - 1)%Z then
        let* traj_point := getitem (the_traj w) (waypoint_index (self w)) in
        let v_vec := (fst (fst current_location) - wp_x traj_point,
                      snd (fst current_location) - wp_y traj_point)%float in
        if (_look_ahead (self w) <? Np.norm2 v_vec)%float then ret tt
        else
          modify (fun w => set_index (waypoint_index (self w) + 1) w) ;;
          advance fuel' current_location
      else ret tt
  end.

Definition run_step (lm : libm) (vehicle_location : VehicleLocation.t)
    (thro_as_speed : bool) : M world (float * float) :=
  let* w := get in
  if (waypoint_index (self w) >=? len (the_traj w) - 1)%Z then ret (0, 0)%float
  else
    let current_location :=
      (VehicleLocation.x vehicle_location, VehicleLocation.y vehicle_location,
       VehicleLocation.heading_angle vehicle_location) in
    let current_speed := VehicleLocation.velocity vehicle_location in
    advance (Z.to_nat (len (the_traj w) - 1 - waypoint_index (self w)))
            current_location ;;
    let* w := get in
    let* traj_point := getitem (the_traj w) (waypoint_index (self w)) in
    let* target_point := getitem (the_traj w) (waypoint_index (self w)) in
    let target_speed := wp_target_speed target_point in
    let* throttle := lon (Lon.run_step current_speed target_speed) in
    let* steering :=
      lat (Lat.run_step lm current_location (wp_x traj_point, wp_y traj_point)) in
    modify (fun w => set_index (waypoint_index (self w) + 1) w) ;;
    let throttle := if thro_as_speed then target_speed else throttle in
    ret (throttle, steering).

End VehiclePIDController.

(** ** A sample of libm for the worked examples

    The values of the C library at the arguments the examples below reach
    (C11 Annex F: [cos(0) = 1], [sin(0) = 0], [acos(1) = 0],
    [acos(0) = pi/2], [acos(-1) = pi], and NaN on NaN).  Elsewhere the
    table holds NaN, which makes [math_1] raise, so that no example can rely
    on a value the table does not have. *)
Definition libm_table : libm := {|
  c_cos := fun x => if is_zero x then 1%float else nan;
  c_sin := fun x => if is_zero x then x else nan;
  c_acos := fun x =>
    if (x =? 1)%float then 0%float
    else if is_zero x then 0x1.921fb54442d18p+0%float
    else if (x =? -1)%float then 0x1.921fb54442d18p+1%float
    else nan
|}.

(** ** Definitions used to state the properties *)

(** The buffer after pushing [samples] in order, oldest first. *)
Definition pushes (samples : list float) (d : list float) : list float :=
  fold_left (fun d x => Deque.append x d) samples d.

(** The estimates as the specification words them: two floats, the
    difference of the last two samples over [dt] and the sum of the window
    times [dt] once two samples exist, [0.0] before; the specification
    names no error condition, so the quotient is the float one. *)
Definition spec_derivative (buffer : list float) (dt : float) : float :=
  match rev buffer with
  | last :: second_last :: _ => ((last - second_last) / dt)%float
  | _ => 0%float
  end.

Definition spec_integral (buffer : list float) (dt : float) : float :=
  match buffer with
  | _ :: _ :: _ => (Py.sum buffer * dt)%float
  | _ => 0%float
  end.

Module LonRuns.

Import PIDLongitudinalController.

(** The controller after a sequence of [run_step(current, target)] calls,
    whether or not some of them raise. *)
Fixpoint run_steps (calls : list (float * float)) (c : t) : t :=
  match calls with
  | [] => c
  | (current_speed, target_speed) :: rest =>
      run_steps rest (snd (run_step current_speed target_speed c))
  end.

Definition errors (calls : list (float * float)) : list float :=
  List.map (fun '(current_speed, target_speed) => (target_speed - current_speed)%float)
           calls.

End LonRuns.

Module LatRuns.

Import PIDLateralController.

(** The calls a client can make on a lateral controller. *)
Inductive call : Set :=
| Step (vehicle_location : float * float * float) (waypoint : float * float)
| Reset
| Change (K_P K_I K_D dt : float).

(** The controller after a sequence of calls, whether or not some of
    them raise. *)
Fixpoint run_calls (lm : libm) (calls : list call) (c : t) : t :=
  match calls with
  | [] => c
  | Step vehicle_location waypoint :: rest =>
      run_calls lm rest (snd (run_step lm vehicle_location waypoint c))
  | Reset :: rest => run_calls lm rest (snd (reset c))
  | Change K_P K_I K_D dt :: rest =>
      run_calls lm rest (snd (change_parameters K_P K_I K_D dt c))
  end.

End LatRuns.

(** A configuration the specification calls invalid: an empty output
    range, or a time step that is not positive. *)
Definition invalid_configuration (output_min output_max dt : float) : bool :=
  (output_max <? output_min)%float || (dt <=? 0)%float.

(** ** Worked scenario

    The tracker as [VehiclePIDController()] builds it in an empty store, and
    the three-point trajectory of the specification's end-to-end scenario,
    built by the caller as a list of its own. *)
Module Scenario.

Import VehiclePIDController.

Definition lon0 : Lon.t := Lon.mk 2 0.1 0 1 0 0.1 [].
Definition lat0 : Lat.t := Lat.mk 2 0.2 0 1 (-1) 0.1 [] [].

Definition tracker0 : world :=
  World (<[0%nat := []]> ∅) (mk 1 lon0 lat0 0%nat None 0).

Definition waypoints : list Waypoint :=
  [ Build_Waypoint 0 0 0 5; Build_Waypoint 10 0 0 5; Build_Waypoint 20 0 0 0 ].

(** The caller evaluates the list display, then calls [set_traj] on it. *)
Definition caller_ref : ref := fst (new_list waypoints (store tracker0)).
Definition tracking : world :=
  snd (set_traj caller_ref (set_store (snd (new_list waypoints (store tracker0))) tracker0)).

Definition at_origin : VehicleLocation.t := VehicleLocation.mk 0 0 0 0.

(** The same with a trajectory of the first two points only. *)
Definition short : list Waypoint :=
  [ Build_Waypoint 0 0 0 5; Build_Waypoint 10 0 0 5 ].
Definition short_ref : ref := fst (new_list short (store tracker0)).
Definition tracking_short : world :=
  snd (set_traj short_ref (set_store (snd (new_list short (store tracker0))) tracker0)).

(** A trajectory whose points are all within the look-ahead radius of a
    vehicle standing on its last point. *)
Definition close : list Waypoint :=
  [ Build_Waypoint 0 0 0 5; Build_Waypoint 0.5 0 0 5 ].
Definition close_ref : ref := fst (new_list close (store tracker0)).
Definition tracking_close : world :=
  snd (set_traj close_ref (set_store (snd (new_list close (store tracker0))) tracker0)).
Definition on_last_point : VehicleLocation.t := VehicleLocation.mk 0.5 0 0 0.

End Scenario.

(** ** The look-ahead search, for stating its properties *)

Module Search.

Import VehiclePIDController.

(** The test of line 65 on one trajectory point: its distance to the
    vehicle exceeds the look-ahead radius. *)
Definition beyond (look_ahead : float) (current_location : float * float * float)
    (traj_point : Waypoint) : bool :=
  (look_ahead
   <? Np.norm2 (fst (fst current_location) - wp_x traj_point,
                snd (fst current_location) - wp_y traj_point))%float.

(** The number of iterations [run_step] allows the loop. *)
Definition fuel_of (w : world) : nat :=
  Z.to_nat (len (the_traj w) - 1 - waypoint_index (self w)).

(** The cursor when the loop of [run_step] is left. *)
Definition selected (current_location : float * float * float) (w : world) : Z :=
  waypoint_index (self (snd (advance (fuel_of w) current_location w))).

(** The loop as the specification words it: the cursor is incremented
    while it is below [len(trajectory) - 1] and the point's distance
    exceeds the look-ahead radius. *)
Fixpoint spec_advance (fuel : nat) (current_location : float * float * float)
    : M world unit :=
  match fuel with
  | O => ret tt
  | S fuel' =>
      let* w := get in
      if (waypoint_index (self w) <? len (the_traj w) - 1)%Z then
        let* traj_point := getitem (the_traj w) (waypoint_index (self w)) in
        if beyond (_look_ahead (self w)) current_location traj_point then
          modify (fun w => set_index (waypoint_index (self w) + 1) w) ;;
          spec_advance fuel' current_location
        else ret tt
      else ret tt
  end.

Definition location (p : VehicleLocation.t) : float * float * float :=
  (VehicleLocation.x p, VehicleLocation.y p, VehicleLocation.heading_angle p).

(** One control tick once the loop has left the cursor on index [j], which
    holds the point [tp]: the two controllers in turn, then the increment
    and the optional override.  It reads lines 68-75 of [run_step]. *)
Definition tick (lm : libm) (p : VehicleLocation.t) (thro_as_speed : bool)
    (j : Z) (tp : Waypoint) (w : world) : outcome (float * float) * world :=
  let w1 := set_index j w in
  let target_speed := wp_target_speed tp in
  let '(o1, c1) :=
    Lon.run_step (VehicleLocation.velocity p) target_speed (_lon_controller (self w)) in
  match o1 with
  | Raise e => (Raise e, set_lon c1 w1)
  | Return throttle =>
      let '(o2, c2) :=
        Lat.run_step lm (location p) (wp_x tp, wp_y tp) (_lat_controller (self w)) in
      match o2 with
      | Raise e => (Raise e, set_lat c2 (set_lon c1 w1))
      | Return steering =>
          (Return (if thro_as_speed then target_speed else throttle, steering),
           set_index (j + 1) (set_lat c2 (set_lon c1 w1)))
      end
  end.

(** The tracker after a sequence of [run_step(pose, flag)] calls, whether
    or not some of them raise. *)
Definition after (lm : libm) (calls : list (VehicleLocation.t * bool)) (w : world)
    : world :=
  fold_left (fun w call => snd (run_step lm (fst call) (snd call) w)) calls w.

End Search.

(** ** Binary64 values through their specification *)

Module Binary64.

(** Kinds of binary64 values, read off their specification. *)
Definition sf_zero (x : spec_float) : Prop := exists s, x = S754_zero s.
Definition sf_finite (x : spec_float) : Prop :=
  sf_zero x \/ exists s m e, x = S754_finite s m e.

Definition SF1 : spec_float := S754_finite false 4503599627370496 (-52).

(** Equality of specifications up to the sign of a zero: what [==]
    observes on values that are not NaN. *)
Definition sf_same (a b : spec_float) : Prop := a = b \/ (sf_zero a /\ sf_zero b).

End Binary64.

(** ** [euclidean_distance] *)

Module Euclid.

(** What a call of [euclidean_distance] can raise: a built-in exception of
    the fragment above, or the [OverflowError] of [float ** int]. *)
Inductive raised : Set :=
| Builtin (e : exn)
| OverflowError.

(** [x ** 2] on a Python float: CPython's [float_pow] with the exponent
    [2.0].  It settles NaN, the infinities, the zeros, the sign and [1.0]
    itself, hands a finite positive base other than 1 to the C library's
    [pow], and turns an infinite result into [OverflowError] (the library
    reports a range error through [errno] with an infinite or a zero
    result only, and CPython forgives the zero).  [c_pow] is that library
    function, a parameter as the rest of libm is. *)
Definition float_pow2 (c_pow : float -> float -> float) (iv : float)
    : raised + float :=
  if is_nan iv then inr iv
  else if is_infinity iv then inr (abs iv)
  else if (iv =? 0)%float then inr 0%float
  else
    let iv := if (iv <? 0)%float then (- iv)%float else iv in
    if (iv =? 1)%float then inr 1%float
    else
      let ix := c_pow iv 2%float in
      if is_infinity ix then inl OverflowError else inr ix.

(** The list comprehension [[(a - b) ** 2 for a, b in zip(v1, v2)]]: the
    pairs in order, the first power that raises ends the evaluation. *)
Fixpoint squares (c_pow : float -> float -> float) (pairs : list (float * float))
    : raised + list float :=
  match pairs with
  | [] => inr []
  | (a, b) :: rest =>
      match float_pow2 c_pow (a - b)%float with
      | inl e => inl e
      | inr sq =>
          match squares c_pow rest with
          | inl e => inl e
          | inr sqs => inr (sq :: sqs)
          end
      end
  end.

(** [math.sqrt], through the same wrapper as the other [math] functions. *)
Definition math_sqrt (x : float) : raised + float :=
  match fst (math_1 sqrt x tt) with
  | Return r => inr r
  | Raise e => inl (Builtin e)
  end.

Definition euclidean_distance (c_pow : float -> float -> float)
    (v1 v2 : list float) : raised + float :=
  match squares c_pow (combine v1 v2) with
  | inl e => inl e
  | inr sqs => math_sqrt (Py.sum sqs)
  end.

(** A sample of [pow] for the worked examples: with the exponent 2 a
    correctly rounded [pow] returns the rounded product. *)
Definition pow_table (x y : float) : float :=
  if (y =? 2)%float then (x * x)%float else nan.

End Euclid.

(** ** Invariants of the controllers, for stating their properties *)

Module Invariants.

(** The lateral history buffer is the tail of the diagnostic log and holds
    at most [maxlen] samples. *)
Definition tail_of_log (c : PIDLateralController.t) : Prop :=
  (exists older,
     PIDLateralController.lat_error c = older ++ PIDLateralController._e_buffer c)
  /\ (length (PIDLateralController._e_buffer c) <= Deque.maxlen)%nat.

(** Every call of the sequence returns (none raises), each from the state
    the previous one left. *)
Fixpoint all_return (lm : libm) (calls : list (VehicleLocation.t * bool))
    (w : VehiclePIDController.world) : Prop :=
  match calls with
  | [] => True
  | call :: rest =>
      (exists command,
         fst (VehiclePIDController.run_step lm (fst call) (snd call) w) = Return command)
      /\ all_return lm rest
           (snd (VehiclePIDController.run_step lm (fst call) (snd call) w))
  end.

(** A float is NaN or lies in the closed range [[lo, hi]]. *)
Definition nan_or_within (lo hi x : float) : Prop :=
  is_nan x = true \/ ((lo <=? x)%float = true /\ (x <=? hi)%float = true).

End Invariants.
(** * Properties *)

(** ** Binary64 arithmetic *)

Module FloatFacts.

Import Binary64.

Lemma is_nan_spec (x : float) : is_nan x = true <-> Prim2SF x = S754_nan.
Proof.
  unfold Prim2SF. split.
  - intros ->. reflexivity.
  - destruct (is_nan x); [reflexivity|].
    destruct (is_zero x); [discriminate|].
    destruct (is_infinity x); [discriminate|].
    destruct (Z.frexp x) as [r ex].
    destruct (shr_fexp _ _ _ _ _) as [sh e'].
    destruct (shr_m sh); discriminate.
Qed.

Lemma nan_unique (x : float) : is_nan x = true -> x = nan.
Proof. intros H. apply Prim2SF_inj. apply is_nan_spec in H. rewrite H. reflexivity. Qed.

Lemma not_nan_spec (x : float) : is_nan x = false <-> Prim2SF x <> S754_nan.
Proof.
  rewrite <- is_nan_spec. destruct (is_nan x); split; congruence.
Qed.

Lemma is_finite_spec (x : float) : is_finite x = true -> sf_finite (Prim2SF x).
Proof.
  unfold is_finite, Prim2SF. intros H.
  apply negb_true_iff, orb_false_iff in H. destruct H as [-> H].
  destruct (is_zero x); [left; eexists; reflexivity|].
  rewrite H.
  destruct (Z.frexp x) as [r ex].
  destruct (shr_fexp _ _ _ _ _) as [sh e'].
  destruct (shr_m sh); [left| right |left]; repeat eexists.
Qed.

Lemma is_zero_spec (x : float) : (x =? 0)%float = true -> sf_zero (Prim2SF x).
Proof.
  rewrite FloatAxioms.eqb_spec. change (Prim2SF 0) with (S754_zero false).
  unfold SFeqb, SFcompare.
  destruct (Prim2SF x) as [s|s| |s m e]; try discriminate.
  - intros _. exists s. reflexivity.
  - destruct s; discriminate.
  - destruct s; discriminate.
Qed.

(** Multiplying by 1.0 is exact on every binary64 value. *)
Lemma SFmul_one_l (x : spec_float) :
  valid_binary x = true -> SFmul prec emax SF1 x = x.
Proof.
  destruct x as [s|s| |s m e]; try reflexivity.
  intros V. cbn [SpecFloat.valid_binary] in V. unfold bounded, canonical_mantissa in V.
  apply andb_true_iff in V. destruct V as [C B].
  apply Z.eqb_eq in C. apply Z.leb_le in B.
  unfold SF1, SFmul. cbn [xorb]. lazy beta iota delta [Pos.mul].
  unfold binary_round_aux, shr_fexp.
  cbn [Zdigits2 digits2_pos].
  rewrite !Pos2Z.inj_succ.
  replace (Z.succ _ + (-52 + e))%Z with (Z.pos (digits2_pos m) + e)%Z by lia.
  rewrite C.
  replace (e - (-52 + e))%Z with 52%Z by lia.
  cbn [shr shr_record_of_loc SpecFloat.iter_pos shr_1 orb].
  cbn [shr_m loc_of_shr_record round_nearest_even Zdigits2].
  replace (-52 + e + 52)%Z with e by lia.
  rewrite C, Z.sub_diag. cbn [shr shr_m].
  apply Z.leb_le in B. rewrite B. reflexivity.
Qed.

Lemma mul_one_l (x : float) : (1 * x)%float = x.
Proof.
  apply Prim2SF_inj. rewrite mul_spec.
  change (Prim2SF 1) with SF1. apply SFmul_one_l, Prim2SF_valid.
Qed.

(** Zero times a finite value is a zero. *)
Lemma mul_zero_finite (z x : float) :
  sf_zero (Prim2SF z) -> sf_finite (Prim2SF x) -> sf_zero (Prim2SF (z * x)).
Proof.
  intros [s Hz] Hx. rewrite mul_spec, Hz.
  destruct Hx as [[s' ->]|(s' & m & e & ->)]; eexists; reflexivity.
Qed.

Lemma mul_finite_zero (x z : float) :
  sf_finite (Prim2SF x) -> sf_zero (Prim2SF z) -> sf_zero (Prim2SF (x * z)).
Proof.
  intros Hx [s Hz]. rewrite mul_spec, Hz.
  destruct Hx as [[s' ->]|(s' & m & e & ->)]; eexists; reflexivity.
Qed.

(** Zero times anything is a zero or NaN. *)
Lemma mul_zero_any (z x : float) :
  sf_zero (Prim2SF z) -> sf_zero (Prim2SF (z * x)) \/ is_nan (z * x) = true.
Proof.
  intros [s Hz]. rewrite is_nan_spec, mul_spec, Hz.
  destruct (Prim2SF x) as [s'|s'| |s' m e]; cbn;
    first [left; eexists; reflexivity | right; reflexivity].
Qed.

Lemma add_zero_zero (a b : float) :
  sf_zero (Prim2SF a) -> sf_zero (Prim2SF b) -> sf_zero (Prim2SF (a + b)).
Proof.
  intros [s Ha] [s' Hb]. rewrite add_spec, Ha, Hb.
  destruct s, s'; eexists; reflexivity.
Qed.

Lemma sub_zero_zero (a b : float) :
  sf_zero (Prim2SF a) -> sf_zero (Prim2SF b) -> sf_zero (Prim2SF (a - b)).
Proof.
  intros [s Ha] [s' Hb]. rewrite sub_spec, Ha, Hb.
  destruct s, s'; eexists; reflexivity.
Qed.

Lemma sqrt_zero (a : float) : sf_zero (Prim2SF a) -> sf_zero (Prim2SF (sqrt a)).
Proof. intros [s Ha]. rewrite sqrt_spec, Ha. exists s. reflexivity. Qed.

Lemma zero_is_zero : sf_zero (Prim2SF 0).
Proof. exists false. reflexivity. Qed.

Lemma zero_not_negative (a : float) : sf_zero (Prim2SF a) -> (a <? 0)%float = false.
Proof. intros [s Ha]. rewrite ltb_spec, Ha. reflexivity. Qed.

Lemma zero_finite (x : spec_float) : sf_zero x -> sf_finite x.
Proof. intros H. left. exact H. Qed.

Create HintDb binary64.
#[export] Hint Resolve zero_is_zero zero_finite mul_zero_finite mul_finite_zero
  add_zero_zero sub_zero_zero sqrt_zero : binary64.

(** A zero over a zero or over NaN is NaN. *)
Lemma div_zero_degenerate (a b : float) :
  sf_zero (Prim2SF a) -> sf_zero (Prim2SF b) \/ is_nan b = true ->
  is_nan (a / b) = true.
Proof.
  intros [s Ha] Hb. rewrite is_nan_spec, div_spec, Ha.
  destruct Hb as [[s' ->]|Hb]; [reflexivity|].
  apply is_nan_spec in Hb. rewrite Hb. reflexivity.
Qed.

(** NaN is absorbing. *)
Lemma mul_nan_r (k : float) : (k * nan)%float = nan.
Proof.
  apply Prim2SF_inj. rewrite mul_spec. change (Prim2SF nan) with S754_nan.
  destruct (Prim2SF k); reflexivity.
Qed.

Lemma add_nan_l (x : float) : (nan + x)%float = nan.
Proof. apply Prim2SF_inj. rewrite add_spec. reflexivity. Qed.

Lemma add_zero_same (x z : float) :
  sf_zero (Prim2SF z) -> sf_same (Prim2SF (x + z)) (Prim2SF x).
Proof.
  intros [s Hz]. rewrite add_spec, Hz.
  destruct (Prim2SF x) as [s'|s'| |s' m e]; try (left; reflexivity).
  right. split; [|eexists; reflexivity]. destruct s', s; eexists; reflexivity.
Qed.

Lemma add_zero_same_trans (u e z : float) :
  sf_same (Prim2SF u) (Prim2SF e) -> sf_zero (Prim2SF z) ->
  sf_same (Prim2SF (u + z)) (Prim2SF e).
Proof.
  intros Hu Hz. destruct (add_zero_same u z Hz) as [E|[Z1 Z2]].
  - rewrite E. exact Hu.
  - destruct Hu as [E|[_ Z3]].
    + right. split; [exact Z1 | rewrite <- E; exact Z2].
    + right. split; assumption.
Qed.

Lemma SFcompare_refl (x : spec_float) : x <> S754_nan -> SFcompare x x = Some Eq.
Proof.
  destruct x as [s|s| |s m e]; intros H; try reflexivity.
  - destruct s; reflexivity.
  - congruence.
  - cbn. rewrite Z.compare_refl, Pos.compare_cont_refl. destruct s; reflexivity.
Qed.

Lemma eqb_of_same (a b : float) :
  sf_same (Prim2SF a) (Prim2SF b) -> is_nan b = false -> (a =? b)%float = true.
Proof.
  intros H Hb. apply not_nan_spec in Hb. rewrite FloatAxioms.eqb_spec. unfold SFeqb.
  destruct H as [E|[[s ->] [s' ->]]]; [|reflexivity].
  rewrite E, SFcompare_refl by exact Hb. reflexivity.
Qed.

(** Rounding a non-negative integer never produces NaN. *)
Lemma shr_1_nonneg mrs : (0 <= shr_m mrs)%Z -> (0 <= shr_m (shr_1 mrs))%Z.
Proof. destruct mrs as [[|[p|p|]|p] r s]; cbn; lia. Qed.

Lemma iter_shr_1_nonneg p : forall mrs,
  (0 <= shr_m mrs)%Z -> (0 <= shr_m (SpecFloat.iter_pos shr_1 p mrs))%Z.
Proof.
  induction p as [p IH|p IH|]; intros mrs H; cbn [SpecFloat.iter_pos].
  - apply IH, IH, shr_1_nonneg, H.
  - apply IH, IH, H.
  - apply shr_1_nonneg, H.
Qed.

Lemma shr_fexp_nonneg m e l :
  (0 <= m)%Z -> (0 <= shr_m (fst (shr_fexp prec emax m e l)))%Z.
Proof.
  intros H. unfold shr_fexp, shr.
  assert (H0 : (0 <= shr_m (shr_record_of_loc m l))%Z)
    by (destruct l as [|[]]; exact H).
  destruct (_ - _)%Z; cbn [fst]; try exact H0.
  apply iter_shr_1_nonneg, H0.
Qed.

Lemma binary_round_aux_not_nan sx mx ex lx :
  (0 <= mx)%Z -> binary_round_aux prec emax sx mx ex lx <> S754_nan.
Proof.
  intros H. unfold binary_round_aux.
  pose proof (shr_fexp_nonneg mx ex lx H) as H1.
  destruct (shr_fexp prec emax mx ex lx) as [mrs' e']. cbn [fst] in H1.
  assert (H2 : (0 <= round_nearest_even (shr_m mrs') (loc_of_shr_record mrs'))%Z).
  { unfold round_nearest_even.
    destruct (loc_of_shr_record mrs') as [|[]]; try destruct (Z.even _); lia. }
  pose proof (shr_fexp_nonneg _ e' loc_Exact H2) as H3.
  destruct (shr_fexp prec emax _ e' loc_Exact) as [mrs'' e'']. cbn [fst] in H3.
  destruct (shr_m mrs'') as [|m|m]; [discriminate | | lia].
  destruct (_ <=? _)%Z; discriminate.
Qed.

Lemma binary_normalize_not_nan m e sz :
  binary_normalize prec emax m e sz <> S754_nan.
Proof.
  unfold binary_normalize, binary_round.
  destruct m as [|m|m]; [discriminate| |];
    destruct (shl_align _ _ _) as [mz ez]; apply binary_round_aux_not_nan; lia.
Qed.

(** The difference of two finite values may overflow to an infinity; it
    is never NaN. *)
Lemma sub_finite_not_nan (a b : float) :
  is_finite a = true -> is_finite b = true -> is_nan (a - b) = false.
Proof.
  intros Ha Hb. apply is_finite_spec in Ha, Hb.
  apply not_nan_spec. rewrite sub_spec.
  destruct Ha as [[s ->]|(s & m & e & ->)], Hb as [[s' ->]|(s' & m' & e' & ->)].
  - destruct s, s'; discriminate.
  - discriminate.
  - discriminate.
  - apply binary_normalize_not_nan.
Qed.

End FloatFacts.

(** ** The error history buffer *)

Section ErrorHistory.

Lemma append_room x d :
  (length d < Deque.maxlen)%nat -> Deque.append x d = d ++ [x].
Proof.
  intros H. unfold Deque.append. rewrite length_app, Nat.add_1_r.
  destruct (Nat.ltb_spec Deque.maxlen (S (length d))); [lia | reflexivity].
Qed.

Lemma append_full x d :
  length d = Deque.maxlen -> Deque.append x d = tl d ++ [x].
Proof.
  intros H. unfold Deque.append. rewrite length_app, Nat.add_1_r, H.
  destruct d as [|a d]; [discriminate H | reflexivity].
Qed.

Lemma append_length x d :
  (length d <= Deque.maxlen)%nat -> (length (Deque.append x d) <= Deque.maxlen)%nat.
Proof.
  intros H. destruct (Nat.eq_dec (length d) Deque.maxlen) as [E|E].
  - rewrite append_full by assumption. destruct d as [|a d]; [discriminate E|].
    cbn [tl]. rewrite length_app. cbn in *. lia.
  - rewrite append_room by lia. rewrite length_app. cbn. lia.
Qed.

Lemma pushes_window samples : forall d,
  (length d <= Deque.maxlen)%nat ->
  pushes samples d
  = skipn (length (d ++ samples) - Deque.maxlen) (d ++ samples).
Proof.
  induction samples as [|x xs IH]; intros d Hd.
  - cbn [pushes fold_left]. rewrite app_nil_r.
    replace (length d - Deque.maxlen)%nat with 0%nat by lia. reflexivity.
  - change (pushes (x :: xs) d) with (pushes xs (Deque.append x d)).
    rewrite IH by (apply append_length; exact Hd).
    destruct (Nat.eq_dec (length d) Deque.maxlen) as [E|E].
    + rewrite append_full by assumption.
      destruct d as [|a d]; [discriminate E|]. cbn [tl].
      rewrite <- app_assoc. cbn [app].
      set (rest := d ++ x :: xs).
      assert (Hr : (Deque.maxlen <= length rest)%nat).
      { unfold rest. rewrite length_app. cbn in *. lia. }
      replace (length (a :: rest) - Deque.maxlen)%nat
        with (S (length rest - Deque.maxlen)) by (cbn [length]; lia).
      reflexivity.
    + rewrite append_room by lia. rewrite <- app_assoc. reflexivity.
Qed.

Lemma getitem_last {S A} (l : list A) (a : A) (s : S) :
  getitem (l ++ [a]) (-1) s = (Return a, s).
Proof.
  unfold getitem, len. rewrite length_app. cbn [length].
  change (-1 <? 0)%Z with true. cbv iota.
  replace (-1 + Z.of_nat (length l + 1))%Z with (Z.of_nat (length l)) by lia.
  destruct (Z.leb_spec 0 (Z.of_nat (length l))); [|lia].
  destruct (Z.ltb_spec (Z.of_nat (length l)) (Z.of_nat (length l + 1))); [|lia].
  cbn [andb]. rewrite Nat2Z.id, nth_error_app2 by lia.
  rewrite Nat.sub_diag. reflexivity.
Qed.

Lemma getitem_second_last {S A} (l : list A) (a b : A) (s : S) :
  getitem (l ++ [b; a]) (-2) s = (Return b, s).
Proof.
  unfold getitem, len. rewrite length_app. cbn [length].
  change (-2 <? 0)%Z with true. cbv iota.
  replace (-2 + Z.of_nat (length l + 2))%Z with (Z.of_nat (length l)) by lia.
  destruct (Z.leb_spec 0 (Z.of_nat (length l))); [|lia].
  destruct (Z.ltb_spec (Z.of_nat (length l)) (Z.of_nat (length l + 2))); [|lia].
  cbn [andb]. rewrite Nat2Z.id, nth_error_app2 by lia.
  rewrite Nat.sub_diag. reflexivity.
Qed.

(** The block of [_pid_control] that computes [_de] and [_ie] against the
    two estimates of the specification: it raises where the specification
    divides by a zero [dt], and agrees with them everywhere else. *)
Lemma estimates_spec {S} (buffer : list float) (dt : float) (s : S) :
  estimates buffer dt s
  = (if (2 <=? len buffer)%Z && (dt =? 0)%float then Raise ZeroDivisionError
     else Return (spec_derivative buffer dt, spec_integral buffer dt), s).
Proof.
  unfold estimates, spec_derivative, spec_integral.
  destruct (rev buffer) as [|a [|b r]] eqn:E;
    apply (f_equal (@rev float)) in E; rewrite rev_involutive in E; subst buffer;
    try reflexivity.
  cbn [rev]. rewrite <- app_assoc. cbn [app].
  assert (L : (2 <=? len (rev r ++ [b; a]))%Z = true).
  { apply Z.leb_le. unfold len. rewrite length_app. cbn [length]. lia. }
  rewrite L. unfold bind at 1.
  rewrite (app_assoc (rev r) [b] [a]) at 1. rewrite getitem_last.
  unfold bind at 1. rewrite getitem_second_last.
  unfold bind, float_truediv. cbn [andb].
  destruct (rev r ++ [b; a]) as [|u [|v l]] eqn:F.
  - destruct (rev r); discriminate F.
  - destruct (rev r) as [|? [|? ?]]; discriminate F.
  - destruct (dt =? 0)%float; reflexivity.
Qed.

End ErrorHistory.

(** ** State left behind by the pure steps *)

(** Case analysis on the outcome of a step [m] that leaves the state as it
    found it, which [Hstate] says. *)
Ltac pure_case m Hstate :=
  let o := fresh "o" in
  let s' := fresh "s" in
  let E := fresh "E" in
  pose proof Hstate as E;
  destruct m as [o s']; cbn [snd] in E; subst s'; destruct o as [?|?].

Section Frames.

Context {S : Type}.

Lemma getitem_state {A} (l : list A) (i : Z) (s : S) : snd (getitem l i s) = s.
Proof.
  unfold getitem.
  destruct (_ && _); [destruct (nth_error _ _)|]; reflexivity.
Qed.

Lemma float_truediv_state (a b : float) (s : S) : snd (float_truediv a b s) = s.
Proof. unfold float_truediv. destruct (b =? 0)%float; reflexivity. Qed.

Lemma math_1_state (f : float -> float) (x : float) (s : S) : snd (math_1 f x s) = s.
Proof.
  unfold math_1.
  destruct (_ && _); [reflexivity|]. destruct (_ && _); reflexivity.
Qed.

Lemma estimates_state (buffer : list float) (dt : float) (s : S) :
  snd (estimates buffer dt s) = s.
Proof.
  unfold estimates. destruct (2 <=? len buffer)%Z; [|reflexivity].
  unfold bind.
  pure_case (getitem buffer (-1) s) (getitem_state buffer (-1) s); [|reflexivity].
  pure_case (getitem buffer (-2) s) (getitem_state buffer (-2) s); [|reflexivity].
  match goal with |- context [float_truediv ?a ?b s] =>
    pure_case (float_truediv a b s) (float_truediv_state a b s)
  end; reflexivity.
Qed.

End Frames.

(** ** The longitudinal controller's buffer *)

Module LonFacts.

Import PIDLongitudinalController LonRuns.

(** A call changes the buffer, by one push of the error, and nothing
    else. *)
Lemma run_step_state current_speed target_speed c :
  snd (run_step current_speed target_speed c)
  = set_buffer
      (Deque.append (target_speed - current_speed)%float (_error_buffer c)) c.
Proof.
  unfold run_step, _pid_control, bind, modify, get.
  set (c' := set_buffer _ c).
  pose proof (estimates_state (_error_buffer c') (_dt c') c') as H.
  destruct (estimates (_error_buffer c') (_dt c') c') as [[[de ie]|e] c''];
    cbn [snd] in H; subst c''; reflexivity.
Qed.

Lemma run_steps_buffer calls : forall c,
  _error_buffer (run_steps calls c) = pushes (errors calls) (_error_buffer c).
Proof.
  induction calls as [|[cur tgt] rest IH]; intros c; [reflexivity|].
  cbn [run_steps errors List.map]. rewrite IH, run_step_state. reflexivity.
Qed.

End LonFacts.

(** C6, as the specification states it, fails for [dt = 0]: with two
    samples in the buffer the specification's estimates are the floats
    [(2 - 1) / 0 = inf] and [sum * 0 = 0.0], while the block of
    [_pid_control] raises [ZeroDivisionError] and yields no estimate, as
    does the controller's call. *)
Lemma C6_counterexample :
  spec_derivative [1; 2]%float 0 = infinity
  /\ spec_integral [1; 2]%float 0 = 0%float
  /\ estimates [1; 2]%float 0 tt = (Raise ZeroDivisionError, tt)
  /\ fst (PIDLongitudinalController.run_step 0 2
            (PIDLongitudinalController.mk 1 0 0 1 0 0 [1%float]))
     = Raise ZeroDivisionError.
Proof. vm_compute. repeat split. Qed.

(** C6 (amended): the error history buffer holds at most 10 samples at all
    times; a push on a full buffer evicts the oldest sample, so that after
    any sequence of pushes on an empty buffer (15 of them in particular)
    the buffer is the last 10 samples in order; this is the buffer of the
    longitudinal controller after any sequence of calls since its
    construction or reset; and on every buffer and for every non-zero [dt]
    the derivative estimate is [(last - second_last) / dt] and the
    integral estimate [sum(samples) * dt] when at least two samples exist,
    both being [0.0] otherwise, whatever [dt] is. *)
Theorem C6_error_history_buffer (samples : list float) (dt : float) :
  let buffer := pushes samples Deque.empty in
  (length buffer <= 10)%nat
  /\ buffer = skipn (length samples - 10) samples
  /\ (length samples = 15%nat -> buffer = skipn 5 samples)
  /\ (forall x d, length d = 10%nat -> Deque.append x d = tl d ++ [x])
  /\ (forall c calls,
        PIDLongitudinalController._error_buffer c = Deque.empty ->
        LonRuns.errors calls = samples ->
        PIDLongitudinalController._error_buffer (LonRuns.run_steps calls c) = buffer)
  /\ (forall (S : Type) (s : S) (d : list float),
        (dt =? 0)%float = false ->
        estimates d dt s = (Return (spec_derivative d dt, spec_integral d dt), s))
  /\ (forall d : list float,
        (2 <= length d)%nat ->
        spec_derivative d dt
        = ((List.last d 0 - List.last (List.removelast d) 0) / dt)%float
        /\ spec_integral d dt = (Py.sum d * dt)%float)
  /\ (forall (S : Type) (s : S) (d : list float),
        (length d < 2)%nat ->
        estimates d dt s = (Return (0, 0)%float, s)
        /\ spec_derivative d dt = 0%float /\ spec_integral d dt = 0%float).
Proof.
  intros buffer.
  assert (W : buffer = skipn (length samples - 10) samples).
  { unfold buffer. rewrite pushes_window by (cbn; lia). reflexivity. }
  split; [rewrite W, length_skipn; lia|]. split; [exact W|].
  split; [intros H; rewrite W, H; reflexivity|].
  split; [intros x d H; apply append_full; exact H|].
  split; [intros c calls Hc He; rewrite LonFacts.run_steps_buffer, Hc, He; reflexivity|].
  split; [|split].
  - intros S s d H. rewrite estimates_spec, H, andb_false_r. reflexivity.
  - intros d H. unfold spec_derivative, spec_integral.
    destruct (rev d) as [|a [|b r]] eqn:E;
      apply (f_equal (@rev float)) in E; rewrite rev_involutive in E; subst d;
      cbn [rev length app] in *; try lia.
    rewrite List.last_last, List.removelast_last, List.last_last.
    rewrite <- app_assoc. cbn [app]. split; [reflexivity|].
    destruct (rev r ++ [b; a]) as [|u [|v l]] eqn:F; [| |reflexivity].
    + destruct (rev r); discriminate F.
    + destruct (rev r) as [|? [|? ?]]; discriminate F.
  - intros S s d H.
    destruct d as [|a [|b d]]; [split; [|split]; reflexivity.. | cbn in H; lia].
Qed.

Lemma C6_witness :
  pushes [1; 2; 3; 4; 5; 6; 7; 8; 9; 10; 11; 12; 13; 14; 15]%float Deque.empty
  = [6; 7; 8; 9; 10; 11; 12; 13; 14; 15]%float
  /\ estimates [1; 2; 4]%float 0.5 tt = (Return (4, 3.5)%float, tt).
Proof.
  destruct (C6_error_history_buffer
              [1; 2; 3; 4; 5; 6; 7; 8; 9; 10; 11; 12; 13; 14; 15]%float 0.5%float)
    as (_ & _ & H & _ & _ & He & _).
  split.
  - apply H. reflexivity.
  - rewrite (He unit tt [1; 2; 4]%float eq_refl). reflexivity.
Defined.

(** ** The scenario is what the constructor builds *)

Lemma tracker0_init :
  VehiclePIDController.__init__ None None 1%float ∅ = Return Scenario.tracker0.
Proof. reflexivity. Qed.

Lemma tracking_trajectory :
  VehiclePIDController.the_traj Scenario.tracking = Scenario.waypoints
  /\ VehiclePIDController.waypoint_index (VehiclePIDController.self Scenario.tracking)
     = 0%Z.
Proof. split; reflexivity. Qed.

(** ** Reset of the lateral controller *)

(** C8, as the specification states it, fails: after one control tick the
    diagnostic log holds the bearing error, and [reset()] leaves it there. *)
Lemma C8_counterexample :
  let c := snd (PIDLateralController.run_step libm_table (0, 0, 0)%float (10, 0)%float
                  Scenario.lat0) in
  PIDLateralController.lat_error c = [0%float]
  /\ PIDLateralController.lat_error (snd (PIDLateralController.reset c)) <> [].
Proof. vm_compute. split; [reflexivity | discriminate]. Qed.

Module LatFacts.

Import PIDLateralController LatRuns.

(** A control tick appends at most one entry to the log and removes
    none, whether it returns or raises. *)
Lemma run_step_log lm vehicle_location waypoint c :
  exists more,
    lat_error (snd (run_step lm vehicle_location waypoint c)) = lat_error c ++ more.
Proof.
  destruct vehicle_location as [[vx vy] heading], waypoint as [w0 w1].
  unfold run_step, _pid_control, math_cos, math_sin, math_acos.
  unfold bind at 1.
  pure_case (math_1 (c_cos lm) heading c) (math_1_state (c_cos lm) heading c);
    [|exists []; symmetry; apply app_nil_r].
  unfold bind at 1.
  pure_case (math_1 (c_sin lm) heading c) (math_1_state (c_sin lm) heading c);
    [|exists []; symmetry; apply app_nil_r].
  unfold bind at 1.
  match goal with |- context [math_1 (c_acos lm) ?a c] =>
    pure_case (math_1 (c_acos lm) a c) (math_1_state (c_acos lm) a c);
      [|exists []; symmetry; apply app_nil_r]
  end.
  unfold bind, modify, get.
  match goal with |- context [estimates ?b ?d ?s] =>
    pure_case (estimates b d s) (estimates_state b d s)
  end.
  - match goal with p : (float * float)%type |- _ => destruct p as [de ie] end.
    eexists. reflexivity.
  - eexists. reflexivity.
Qed.

(** The log is append-only under every sequence of calls, resets
    included. *)
Lemma run_calls_log lm calls : forall c,
  exists more, lat_error (run_calls lm calls c) = lat_error c ++ more.
Proof.
  induction calls as [|[loc wp| |kp ki kd dt'] rest IH]; intros c; cbn [run_calls].
  - exists []. symmetry. apply app_nil_r.
  - destruct (run_step_log lm loc wp c) as (m1 & E1).
    destruct (IH (snd (run_step lm loc wp c))) as (m2 & E2).
    exists (m1 ++ m2). rewrite E2, E1, app_assoc. reflexivity.
  - destruct (IH (snd (reset c))) as (m & E). exists m. exact E.
  - destruct (IH (snd (change_parameters kp ki kd dt' c))) as (m & E). exists m. exact E.
Qed.

End LatFacts.

(** C8 (amended): the lateral controller's [reset()] returns normally,
    empties the error history buffer, and leaves the diagnostic log and
    the six gains as they were; the log is append-only: no sequence of
    control ticks, resets and parameter changes removes an entry from
    it. *)
Theorem C8_lateral_reset (lm : libm) (c : PIDLateralController.t)
    (calls : list LatRuns.call) :
  PIDLateralController.reset c
  = (Return tt,
     PIDLateralController.mk
       (PIDLateralController._K_P c) (PIDLateralController._K_D c)
       (PIDLateralController._K_I c) (PIDLateralController._output_max c)
       (PIDLateralController._output_min c) (PIDLateralController._dt c)
       [] (PIDLateralController.lat_error c))
  /\ exists more,
       PIDLateralController.lat_error (LatRuns.run_calls lm calls c)
       = PIDLateralController.lat_error c ++ more.
Proof.
  split.
  - reflexivity.
  - apply LatFacts.run_calls_log.
Qed.

(** ** The tracker *)

Module TrackerFacts.

Import VehiclePIDController Search.

Lemma set_index_same (w : world) : set_index (waypoint_index (self w)) w = w.
Proof. destruct w as [st []]. reflexivity. Qed.

Lemma getitem_in_range {A} (l : list A) (i : Z) :
  (0 <= i < len l)%Z ->
  exists a, nth_error l (Z.to_nat i) = Some a
            /\ forall (S : Type) (s : S), getitem l i s = (Return a, s).
Proof.
  intros [H0 H1]. unfold len in H1.
  destruct (nth_error l (Z.to_nat i)) as [a|] eqn:E.
  - exists a. split; [reflexivity|]. intros S s. unfold getitem, len.
    destruct (Z.ltb_spec i 0); [lia|].
    destruct (Z.leb_spec 0 i); [|lia].
    destruct (Z.ltb_spec i (Z.of_nat (length l))); [|lia].
    cbn [andb]. rewrite E. reflexivity.
  - apply nth_error_None in E. lia.
Qed.

(** The loop never raises from a non-negative cursor, runs out of work
    before it runs out of fuel, and leaves the cursor on the first point
    from the cursor on that lies beyond the look-ahead radius, or on the
    last index when there is none. *)
Lemma advance_spec cur : forall fuel w,
  (0 <= waypoint_index (self w))%Z ->
  (len (the_traj w) - 1 - waypoint_index (self w) <= Z.of_nat fuel)%Z ->
  exists j,
    advance fuel cur w = (Return tt, set_index j w)
    /\ (waypoint_index (self w) <= j)%Z
    /\ (j <= Z.max (waypoint_index (self w)) (len (the_traj w) - 1))%Z
    /\ (forall k tp, (waypoint_index (self w) <= k < j)%Z ->
          nth_error (the_traj w) (Z.to_nat k) = Some tp ->
          beyond (_look_ahead (self w)) cur tp = false)
    /\ ((j < len (the_traj w) - 1)%Z ->
          exists tp, nth_error (the_traj w) (Z.to_nat j) = Some tp
                     /\ beyond (_look_ahead (self w)) cur tp = true).
Proof.
  assert (stay : forall w : world,
    (len (the_traj w) - 1 <= waypoint_index (self w))%Z
    \/ (exists tp, nth_error (the_traj w) (Z.to_nat (waypoint_index (self w))) = Some tp
                   /\ beyond (_look_ahead (self w)) cur tp = true) ->
    exists j,
      (Return tt, w) = (Return tt, set_index j w)
      /\ (waypoint_index (self w) <= j)%Z
      /\ (j <= Z.max (waypoint_index (self w)) (len (the_traj w) - 1))%Z
      /\ (forall k tp, (waypoint_index (self w) <= k < j)%Z ->
            nth_error (the_traj w) (Z.to_nat k) = Some tp ->
            beyond (_look_ahead (self w)) cur tp = false)
      /\ ((j < len (the_traj w) - 1)%Z ->
            exists tp, nth_error (the_traj w) (Z.to_nat j) = Some tp
                       /\ beyond (_look_ahead (self w)) cur tp = true)).
  { intros w Hw. exists (waypoint_index (self w)). rewrite set_index_same.
    split; [reflexivity|]. split; [lia|]. split; [lia|]. split.
    - intros k tp Hk. lia.
    - intros Hj. destruct Hw as [Hw|Hw]; [lia | exact Hw]. }
  induction fuel as [|fuel IH]; intros w H0 Hf.
  - cbn [advance]. unfold ret. apply stay. left. lia.
  - cbn [advance]. unfold bind at 1. unfold get.
    destruct (Z.ltb_spec (waypoint_index (self w)) (len (the_traj w) - 1)) as [Hlt|Hge].
    + destruct (getitem_in_range (the_traj w) (waypoint_index (self w))) as (tp & Hn & Hg);
        [lia|].
      unfold bind at 1. rewrite Hg.
      fold (beyond (_look_ahead (self w)) cur tp).
      destruct (beyond (_look_ahead (self w)) cur tp) eqn:Hb.
      * unfold ret. apply stay. right. exists tp. split; assumption.
      * unfold bind at 1. unfold modify.
        destruct (IH (set_index (waypoint_index (self w) + 1) w))
          as (j & E & L1 & L2 & Hk & Hj).
        { cbn. lia. }
        { change (the_traj (set_index (waypoint_index (self w) + 1) w))
            with (the_traj w). cbn. lia. }
        change (the_traj (set_index (waypoint_index (self w) + 1) w))
          with (the_traj w) in *.
        cbn [set_index self waypoint_index store _look_ahead] in *.
        exists j. rewrite E.
        split; [reflexivity|]. split; [lia|]. split; [lia|]. split.
        -- intros k tp' Hr Hn'.
           destruct (Z.eq_dec k (waypoint_index (self w))) as [->|Hne].
           ++ rewrite Hn in Hn'. injection Hn' as <-. exact Hb.
           ++ apply (Hk k tp'); [lia | exact Hn'].
        -- exact Hj.
    + unfold ret. apply stay. left. lia.
Qed.

Lemma run_step_finished lm p f w :
  (len (the_traj w) - 1 <= waypoint_index (self w))%Z ->
  run_step lm p f w = (Return (0, 0)%float, w).
Proof.
  intros H. unfold run_step, bind, get.
  rewrite Z.geb_leb. destruct (Z.leb_spec (len (the_traj w) - 1) (waypoint_index (self w)));
    [reflexivity | lia].
Qed.

(** In the Tracking state a call is the loop followed by one [tick] on the
    index the loop selects. *)
Lemma run_step_tracking lm p f w :
  (0 <= waypoint_index (self w) < len (the_traj w) - 1)%Z ->
  exists j tp,
    advance (fuel_of w) (location p) w = (Return tt, set_index j w)
    /\ (waypoint_index (self w) <= j <= len (the_traj w) - 1)%Z
    /\ nth_error (the_traj w) (Z.to_nat j) = Some tp
    /\ run_step lm p f w = tick lm p f j tp w.
Proof.
  intros [H0 H1].
  destruct (advance_spec (location p) (fuel_of w) w) as (j & E & L1 & L2 & _ & _);
    [lia | unfold fuel_of; lia |].
  destruct (getitem_in_range (the_traj w) j) as (tp & Hn & Hg); [lia|].
  exists j, tp. split; [exact E|]. split; [lia|]. split; [exact Hn|].
  unfold run_step. unfold bind at 1. unfold get at 1.
  rewrite Z.geb_leb.
  destruct (Z.leb_spec (len (the_traj w) - 1) (waypoint_index (self w))); [lia|].
  unfold bind at 1. fold (location p). fold (fuel_of w). rewrite E.
  unfold bind at 1. unfold get.
  change (the_traj (set_index j w)) with (the_traj w).
  change (waypoint_index (self (set_index j w))) with j.
  unfold bind at 1. rewrite Hg. unfold bind at 1. rewrite Hg.
  unfold tick, bind, lon, lat, zoom, modify, ret.
  change (_lon_controller (self (set_index j w))) with (_lon_controller (self w)).
  destruct (Lon.run_step _ _ _) as [[th|e] c1]; [|reflexivity].
  change (_lat_controller (self (set_lon c1 (set_index j w))))
    with (_lat_controller (self w)).
  destruct (Lat.run_step _ _ _ _) as [[st|e] c2]; reflexivity.
Qed.

End TrackerFacts.

(** ** The look-ahead search *)

(** C2, as the specification states it, fails: in the end-to-end scenario
    (vehicle on the first point, look-ahead 1) the loop of the source moves
    the cursor from 0 to 1, past the point at distance 0, and stops on the
    point at distance 10; the loop of the specification leaves it on 0. *)
Lemma C2_counterexample :
  let cur := Search.location Scenario.at_origin in
  let w := Scenario.tracking in
  VehiclePIDController.advance (Search.fuel_of w) cur w
  = (Return tt, VehiclePIDController.set_index 1 w)
  /\ Search.spec_advance (Search.fuel_of w) cur w
     = (Return tt, VehiclePIDController.set_index 0 w)
  /\ Search.beyond 1 cur (Build_Waypoint 0 0 0 5) = false
  /\ Search.beyond 1 cur (Build_Waypoint 10 0 0 5) = true.
Proof. vm_compute. repeat split. Qed.

(** C2 (amended): in each call to [run_step] in the Tracking state the
    loop returns normally and only moves the cursor, to an index [j] with
    [cursor <= j <= len(trajectory) - 1]; the cursor is incremented while
    it is below [len(trajectory) - 1] and the distance between the vehicle
    position and the point under the cursor does not exceed the look-ahead
    radius, so every point passed over is within the radius and the loop
    stops on the first point whose distance exceeds it, or on the last
    index [len(trajectory) - 1]; the tick then runs on that index. *)
Theorem C2_look_ahead_search (lm : libm) (p : VehicleLocation.t) (f : bool)
    (w : VehiclePIDController.world) :
  let cursor := VehiclePIDController.waypoint_index (VehiclePIDController.self w) in
  let trajectory := VehiclePIDController.the_traj w in
  let look_ahead := VehiclePIDController._look_ahead (VehiclePIDController.self w) in
  (0 <= cursor < len trajectory - 1)%Z ->
  exists j tp,
    VehiclePIDController.advance (Search.fuel_of w) (Search.location p) w
    = (Return tt, VehiclePIDController.set_index j w)
    /\ (cursor <= j <= len trajectory - 1)%Z
    /\ (forall k tk, (cursor <= k < j)%Z ->
          nth_error trajectory (Z.to_nat k) = Some tk ->
          Search.beyond look_ahead (Search.location p) tk = false)
    /\ nth_error trajectory (Z.to_nat j) = Some tp
    /\ ((j < len trajectory - 1)%Z ->
          Search.beyond look_ahead (Search.location p) tp = true)
    /\ VehiclePIDController.run_step lm p f w = Search.tick lm p f j tp w.
Proof.
  intros cursor trajectory look_ahead H.
  destruct (TrackerFacts.run_step_tracking lm p f w H) as (j & tp & E & Hj & Hn & Hr).
  destruct (TrackerFacts.advance_spec (Search.location p) (Search.fuel_of w) w)
    as (j' & E' & _ & _ & Hk & Hb); [lia | unfold Search.fuel_of; lia |].
  assert (j' = j) as ->.
  { rewrite E in E'. injection E' as E'. symmetry. exact E'. }
  exists j, tp. split; [exact E|]. split; [exact Hj|]. split; [exact Hk|].
  split; [exact Hn|]. split; [|exact Hr].
  intros Hlt. destruct (Hb Hlt) as (tp' & Hn' & Hb').
  unfold trajectory, look_ahead. congruence.
Qed.

Lemma C2_witness :
  exists j tp,
    VehiclePIDController.advance (Search.fuel_of Scenario.tracking)
      (Search.location Scenario.at_origin) Scenario.tracking
    = (Return tt, VehiclePIDController.set_index j Scenario.tracking)
    /\ nth_error Scenario.waypoints (Z.to_nat j) = Some tp
    /\ Search.beyond 1 (Search.location Scenario.at_origin) tp = true.
Proof.
  destruct (C2_look_ahead_search libm_table Scenario.at_origin false Scenario.tracking)
    as (j & tp & E & Hj & _ & Hn & Hb & _).
  - vm_compute. split; [discriminate | reflexivity].
  - exists j, tp. split; [exact E|]. split; [exact Hn|].
    apply Hb. vm_compute in E. injection E as <-. reflexivity.
Defined.

(** ** The waypoint cursor *)

Module CursorFacts.

Import VehiclePIDController Search.

(** A tick touches neither the store nor the reference to the trajectory,
    and leaves the cursor on [j] (when a controller raises) or [j + 1]. *)
Lemma tick_frame lm p f j tp w :
  let w' := snd (tick lm p f j tp w) in
  store w' = store w
  /\ traj (self w') = traj (self w)
  /\ (waypoint_index (self w') = j \/ waypoint_index (self w') = j + 1)%Z.
Proof.
  unfold tick.
  destruct (Lon.run_step _ _ _) as [[th|e] c1].
  - destruct (Lat.run_step _ _ _ _) as [[st|e] c2]; cbn; auto.
  - cbn. auto.
Qed.

Lemma run_step_cursor lm p f w :
  let n := len (the_traj w) in
  let w' := snd (run_step lm p f w) in
  (0 <= waypoint_index (self w) <= n)%Z ->
  store w' = store w
  /\ traj (self w') = traj (self w)
  /\ (waypoint_index (self w) <= waypoint_index (self w') <= n)%Z.
Proof.
  intros n w' H.
  destruct (Z.le_gt_cases (n - 1) (waypoint_index (self w))) as [Hfin|Htrk].
  - unfold w'. rewrite TrackerFacts.run_step_finished by exact Hfin. cbn [snd]. repeat split; lia.
  - destruct (TrackerFacts.run_step_tracking lm p f w) as (j & tp & _ & Hj & _ & Hr);
      [unfold n in *; lia|].
    unfold w'. rewrite Hr.
    destruct (tick_frame lm p f j tp w) as (Hs & Ht & Hi).
    split; [exact Hs|]. split; [exact Ht|]. fold n in Hj. lia.
Qed.

Lemma after_cursor lm calls : forall w,
  (0 <= waypoint_index (self w) <= len (the_traj w))%Z ->
  the_traj (after lm calls w) = the_traj w
  /\ (waypoint_index (self w) <= waypoint_index (self (after lm calls w))
      <= len (the_traj w))%Z.
Proof.
  induction calls as [|[p f] calls IH]; intros w H.
  - cbn. split; [reflexivity | lia].
  - change (after lm ((p, f) :: calls) w)
      with (after lm calls (snd (run_step lm p f w))).
    destruct (run_step_cursor lm p f w H) as (Hs & Ht & Hi).
    assert (Htr : the_traj (snd (run_step lm p f w)) = the_traj w).
    { unfold the_traj. rewrite Hs, Ht. reflexivity. }
    destruct (IH (snd (run_step lm p f w))) as (IH1 & IH2).
    { rewrite Htr. lia. }
    rewrite Htr in *. split; [exact IH1 | lia].
Qed.

End CursorFacts.

(** C3, as the specification states it, fails: with a two-point trajectory
    and the vehicle on the first point, one call leaves the cursor on 2,
    the length of the trajectory, outside [0, len(trajectory)). *)
Lemma C3_counterexample :
  let w := snd (VehiclePIDController.run_step libm_table Scenario.at_origin false
                  Scenario.tracking_short) in
  VehiclePIDController.the_traj w = Scenario.short
  /\ VehiclePIDController.waypoint_index (VehiclePIDController.self w) = 2%Z
  /\ ~ (VehiclePIDController.waypoint_index (VehiclePIDController.self w)
        < len (VehiclePIDController.the_traj w))%Z.
Proof. vm_compute. repeat split. discriminate. Qed.

(** C3 (amended): for every trajectory set via [set_traj] and every
    sequence of [run_step] calls, the trajectory stays the one that was
    set, the cursor stays in the closed range [0, len(trajectory)] and
    never decreases from one call to the next, and once it has reached
    [len(trajectory) - 1] every further call returns [(0.0, 0.0)] and
    changes nothing. *)
Theorem C3_cursor (lm : libm) (w : VehiclePIDController.world)
    (r : VehiclePIDController.ref) (calls : list (VehicleLocation.t * bool))
    (p : VehicleLocation.t) (f : bool) :
  let trajectory := VehiclePIDController.deref (VehiclePIDController.store w) r in
  let wk := Search.after lm calls (snd (VehiclePIDController.set_traj r w)) in
  let cursor := VehiclePIDController.waypoint_index (VehiclePIDController.self wk) in
  let next := VehiclePIDController.run_step lm p f wk in
  VehiclePIDController.the_traj wk = trajectory
  /\ (0 <= cursor <= len trajectory)%Z
  /\ (cursor
      <= VehiclePIDController.waypoint_index (VehiclePIDController.self (snd next))
      <= len trajectory)%Z
  /\ ((len trajectory - 1 <= cursor)%Z -> next = (Return (0, 0)%float, wk)).
Proof.
  intros trajectory wk cursor next. subst next cursor wk.
  set (w0 := snd (VehiclePIDController.set_traj r w)).
  assert (T0 : VehiclePIDController.the_traj w0 = trajectory) by reflexivity.
  assert (I0 : VehiclePIDController.waypoint_index (VehiclePIDController.self w0) = 0%Z)
    by reflexivity.
  destruct (CursorFacts.after_cursor lm calls w0) as (Htr & Hc).
  { rewrite I0, T0. unfold len. lia. }
  rewrite T0 in Htr, Hc. rewrite I0 in Hc.
  split; [exact Htr|]. split; [exact Hc|].
  destruct (CursorFacts.run_step_cursor lm p f (Search.after lm calls w0)) as (_ & _ & Hn).
  { rewrite Htr. exact Hc. }
  rewrite Htr in Hn. split; [exact Hn|].
  intros Hfin. apply TrackerFacts.run_step_finished. rewrite Htr. exact Hfin.
Qed.

Lemma C3_witness :
  VehiclePIDController.run_step libm_table Scenario.at_origin false
    (Search.after libm_table [(Scenario.at_origin, false)]
       (snd (VehiclePIDController.set_traj Scenario.caller_ref
               (VehiclePIDController.set_store
                  (snd (VehiclePIDController.new_list Scenario.waypoints
                          (VehiclePIDController.store Scenario.tracker0)))
                  Scenario.tracker0))))
  = (Return (0, 0)%float,
     Search.after libm_table [(Scenario.at_origin, false)]
       (snd (VehiclePIDController.set_traj Scenario.caller_ref
               (VehiclePIDController.set_store
                  (snd (VehiclePIDController.new_list Scenario.waypoints
                          (VehiclePIDController.store Scenario.tracker0)))
                  Scenario.tracker0)))).
Proof.
  apply (C3_cursor libm_table _ Scenario.caller_ref [(Scenario.at_origin, false)]
           Scenario.at_origin false).
  vm_compute. discriminate.
Defined.

(** ** The trajectory object *)

Module StoreFacts.

Import VehiclePIDController Search.





End StoreFacts.




(** ** The throttle override *)

Module OverrideFacts.

Import VehiclePIDController Search.

Lemma estimates_returns {S} (buffer : list float) (dt : float) (s : S) :
  (dt =? 0)%float = false ->
  exists de ie, estimates buffer dt s = (Return (de, ie), s).
Proof.
  intros H. rewrite estimates_spec, H, andb_false_r. eexists; eexists; reflexivity.
Qed.

(** With a non-zero [dt] the longitudinal controller always returns. *)
Lemma lon_returns current_speed target_speed (c : Lon.t) :
  (Lon._dt c =? 0)%float = false ->
  exists throttle, fst (Lon.run_step current_speed target_speed c) = Return throttle.
Proof.
  intros H. unfold Lon.run_step, Lon._pid_control, bind, modify, get.
  set (c' := Lon.set_buffer _ c).
  destruct (estimates_returns (Lon._error_buffer c') (Lon._dt c') c' H) as (de & ie & E).
  rewrite E. eexists. reflexivity.
Qed.

(** What one tick does with the flag set, next to the same tick without. *)
Lemma tick_override lm p j tp w :
  let with_flag := tick lm p true j tp w in
  let without := tick lm p false j tp w in
  Lon._error_buffer (_lon_controller (self (snd with_flag)))
  = Deque.append (wp_target_speed tp - VehicleLocation.velocity p)%float
      (Lon._error_buffer (_lon_controller (self w)))
  /\ snd with_flag = snd without
  /\ fst with_flag
     = match fst without with
       | Return (_, steering) => Return (wp_target_speed tp, steering)
       | Raise e => Raise e
       end
  /\ (forall steering c2,
        (Lon._dt (_lon_controller (self w)) =? 0)%float = false ->
        Lat.run_step lm (location p) (wp_x tp, wp_y tp) (_lat_controller (self w))
        = (Return steering, c2) ->
        fst with_flag = Return (wp_target_speed tp, steering)).
Proof.
  unfold tick.
  pose proof (LonFacts.run_step_state (VehicleLocation.velocity p) (wp_target_speed tp)
                (_lon_controller (self w))) as Hb.
  pose proof (lon_returns (VehicleLocation.velocity p) (wp_target_speed tp)
                (_lon_controller (self w))) as Hr.
  destruct (Lon.run_step _ _ _) as [[th|e] c1]; cbn [snd fst] in Hb, Hr; subst c1.
  - destruct (Lat.run_step _ _ _ _) as [[st|e] c2].
    + cbn. repeat split. intros steering c2' _ E. congruence.
    + cbn. repeat split. intros steering c2' _ E. discriminate E.
  - cbn. repeat split. intros steering c2' Hdt _.
    destruct (Hr Hdt) as (th & E). discriminate E.
Qed.

End OverrideFacts.

(** C10: in the Tracking state with the throttle-as-target-speed flag set,
    [run_step] still runs the longitudinal controller first: whatever the
    outcome, its error buffer receives the sample
    [target_speed - current_speed] of the selected waypoint, and the call
    leaves the same state as the call without the flag; the outcome
    differs from that call's only in the throttle, which is the selected
    waypoint's [target_speed] itself; and the call returns whenever the
    longitudinal [dt] is not zero and the lateral controller returns. *)
Theorem C10_throttle_override (lm : libm) (p : VehicleLocation.t)
    (w : VehiclePIDController.world) :
  let cursor := VehiclePIDController.waypoint_index (VehiclePIDController.self w) in
  let trajectory := VehiclePIDController.the_traj w in
  let lonc := VehiclePIDController._lon_controller (VehiclePIDController.self w) in
  let latc := VehiclePIDController._lat_controller (VehiclePIDController.self w) in
  let with_flag := VehiclePIDController.run_step lm p true w in
  let without := VehiclePIDController.run_step lm p false w in
  (0 <= cursor < len trajectory - 1)%Z ->
  exists j tp,
    VehiclePIDController.advance (Search.fuel_of w) (Search.location p) w
    = (Return tt, VehiclePIDController.set_index j w)
    /\ nth_error trajectory (Z.to_nat j) = Some tp
    /\ PIDLongitudinalController._error_buffer
         (VehiclePIDController._lon_controller
            (VehiclePIDController.self (snd with_flag)))
       = Deque.append (wp_target_speed tp - VehicleLocation.velocity p)%float
           (PIDLongitudinalController._error_buffer lonc)
    /\ snd with_flag = snd without
    /\ fst with_flag
       = match fst without with
         | Return (_, steering) => Return (wp_target_speed tp, steering)
         | Raise e => Raise e
         end
    /\ (forall throttle steering,
          fst with_flag = Return (throttle, steering) -> throttle = wp_target_speed tp)
    /\ (forall steering c2,
          (PIDLongitudinalController._dt lonc =? 0)%float = false ->
          PIDLateralController.run_step lm (Search.location p) (wp_x tp, wp_y tp) latc
          = (Return steering, c2) ->
          fst with_flag = Return (wp_target_speed tp, steering)).
Proof.
  intros cursor trajectory lonc latc with_flag without H.
  destruct (TrackerFacts.run_step_tracking lm p true w H) as (j & tp & E & _ & Hn & Ht).
  destruct (TrackerFacts.run_step_tracking lm p false w H) as (j' & tp' & E' & _ & Hn' & Hf).
  assert (j' = j) as -> by (rewrite E in E'; injection E' as E'; symmetry; exact E').
  assert (tp' = tp) as -> by congruence.
  destruct (OverrideFacts.tick_override lm p j tp w) as (Hb & Hs & Ho & Hr).
  subst with_flag without. rewrite Ht, Hf.
  exists j, tp. split; [exact E|]. split; [exact Hn|]. split; [exact Hb|].
  split; [exact Hs|]. split; [exact Ho|]. split; [|exact Hr].
  intros throttle steering Hret. rewrite Ho in Hret.
  destruct (fst (Search.tick lm p false j tp w)) as [[th st]|e]; congruence.
Qed.

Lemma C10_witness :
  fst (VehiclePIDController.run_step libm_table Scenario.at_origin true Scenario.tracking)
  = Return (5, 0)%float.
Proof.
  destruct (C10_throttle_override libm_table Scenario.at_origin Scenario.tracking)
    as (j & tp & E & Hn & _ & _ & _ & _ & Hr).
  - vm_compute. split; [discriminate | reflexivity].
  - vm_compute in E. injection E as <-.
    vm_compute in Hn. injection Hn as <-.
    apply (Hr 0%float
             (PIDLateralController.mk 2 0.2 0 1 (-1) 0.1 [0%float] [0%float]));
      vm_compute; reflexivity.
Defined.

(** ** Clamping *)

Module ClipFacts.

Import Binary64 FloatFacts.

Lemma clip_nan (lo hi : float) : Np.clip nan lo hi = nan.
Proof. reflexivity. Qed.

(** With the range [-inf, +inf] clamping is the identity. *)
Lemma clip_unbounded (x : float) : Np.clip x neg_infinity infinity = x.
Proof.
  unfold Np.clip, Np.npy_max, Np.npy_min.
  destruct (is_nan x) eqn:N; [rewrite N; reflexivity|].
  pose proof (proj1 (not_nan_spec x) N) as Hx.
  assert (M : (if (neg_infinity <? x)%float then x else neg_infinity) = x).
  { rewrite ltb_spec. change (Prim2SF neg_infinity) with (S754_infinity true).
    destruct (Prim2SF x) as [s|s| |s m e] eqn:E; try reflexivity; [|congruence].
    destruct s; [|reflexivity]. cbn. symmetry. apply Prim2SF_inj. rewrite E. reflexivity. }
  rewrite M, N.
  rewrite ltb_spec. change (Prim2SF infinity) with (S754_infinity false).
  destruct (Prim2SF x) as [s|s| |s m e] eqn:E; try reflexivity; [|congruence].
  destruct s; [reflexivity|]. cbn. symmetry. apply Prim2SF_inj. rewrite E. reflexivity.
Qed.

Lemma ltb_leb (x y : float) : (x <? y)%float = true -> (x <=? y)%float = true.
Proof.
  rewrite ltb_spec, leb_spec. unfold SFltb, SFleb.
  destruct (SFcompare _ _) as [[]|]; congruence.
Qed.

Lemma leb_refl (x : float) : is_nan x = false -> (x <=? x)%float = true.
Proof.
  intros H. rewrite leb_spec. unfold SFleb.
  rewrite SFcompare_refl by (apply not_nan_spec; exact H). reflexivity.
Qed.

Lemma leb_not_nan (x y : float) :
  (x <=? y)%float = true -> is_nan x = false /\ is_nan y = false.
Proof.
  rewrite leb_spec, !not_nan_spec. unfold SFleb, SFcompare.
  destruct (Prim2SF x), (Prim2SF y); try discriminate; split; discriminate.
Qed.

(** The clamping law: a value that is not NaN is clamped into a
    non-empty range. *)
Lemma clip_bounds (x lo hi : float) :
  is_nan x = false -> (lo <=? hi)%float = true ->
  (lo <=? Np.clip x lo hi)%float = true /\ (Np.clip x lo hi <=? hi)%float = true.
Proof.
  intros N L. destruct (leb_not_nan lo hi L) as [Nlo Nhi].
  unfold Np.clip, Np.npy_max, Np.npy_min. rewrite N.
  destruct (lo <? x)%float eqn:A.
  - rewrite N. destruct (x <? hi)%float eqn:B.
    + split; apply ltb_leb; assumption.
    + split; [exact L | apply leb_refl; exact Nhi].
  - rewrite Nlo. destruct (lo <? hi)%float eqn:B.
    + split; [apply leb_refl; exact Nlo | exact L].
    + split; [exact L | apply leb_refl; exact Nhi].
Qed.

End ClipFacts.

(** ** The longitudinal controller with unit proportional gain *)

(** C7, as the specification states it, fails: with [K_P=1], [K_I=0],
    [K_D=0] and the range [-inf, +inf], after the finite call
    [step(0, 1e308)] the finite call [step(1e308, 0)] has the derivative
    estimate overflow to [-inf], [0 * -inf] is NaN, and the call returns
    NaN where [target - current] is [-1e308]; and with [dt = 0] the second
    call raises. *)
Lemma C7_counterexample :
  let c := PIDLongitudinalController.mk 1 0 0 infinity neg_infinity 0.1 [] in
  let first := PIDLongitudinalController.run_step 0 1e308 c in
  let second := PIDLongitudinalController.run_step 1e308 0 (snd first) in
  let c0 := PIDLongitudinalController.mk 1 0 0 infinity neg_infinity 0 [1%float] in
  fst first = Return 1e308%float
  /\ is_finite 1e308 = true
  /\ fst second = Return nan
  /\ (nan =? 0 - 1e308)%float = false
  /\ fst (PIDLongitudinalController.run_step 1 3 c0) = Raise ZeroDivisionError.
Proof. vm_compute. repeat split. Qed.

(** C7 (amended): with [K_P=1], [K_I=0], [K_D=0] and the range
    [-inf, +inf], for every finite current and target speed and every
    buffer state on which the step computes its derivative and integral
    estimates ([dt] is not zero, or the buffer was empty) and these are
    finite, [run_step(current, target)] returns a value equal to
    [target - current], having pushed that error. *)
Theorem C7_unit_gain (c : PIDLongitudinalController.t)
    (current_speed target_speed de ie : float) :
  let error := (target_speed - current_speed)%float in
  let c' := PIDLongitudinalController.set_buffer
              (Deque.append error (PIDLongitudinalController._error_buffer c)) c in
  PIDLongitudinalController._K_P c = 1%float ->
  PIDLongitudinalController._K_I c = 0%float ->
  PIDLongitudinalController._K_D c = 0%float ->
  PIDLongitudinalController._output_min c = neg_infinity ->
  PIDLongitudinalController._output_max c = infinity ->
  is_finite current_speed = true ->
  is_finite target_speed = true ->
  estimates (PIDLongitudinalController._error_buffer c')
            (PIDLongitudinalController._dt c') c' = (Return (de, ie), c') ->
  is_finite de = true ->
  is_finite ie = true ->
  exists throttle,
    PIDLongitudinalController.run_step current_speed target_speed c
    = (Return throttle, c')
    /\ (throttle =? error)%float = true.
Proof.
  intros error c' HP HI HD Hmin Hmax Hc Ht He Hde Hie.
  unfold PIDLongitudinalController.run_step, PIDLongitudinalController._pid_control,
    bind, modify, get.
  fold error. fold c'. rewrite He.
  change (PIDLongitudinalController._K_P c') with (PIDLongitudinalController._K_P c).
  change (PIDLongitudinalController._K_D c') with (PIDLongitudinalController._K_D c).
  change (PIDLongitudinalController._K_I c') with (PIDLongitudinalController._K_I c).
  change (PIDLongitudinalController._output_min c')
    with (PIDLongitudinalController._output_min c).
  change (PIDLongitudinalController._output_max c')
    with (PIDLongitudinalController._output_max c).
  rewrite HP, HI, HD, Hmin, Hmax.
  eexists. split; [reflexivity|].
  rewrite ClipFacts.clip_unbounded, FloatFacts.mul_one_l.
  apply FloatFacts.eqb_of_same.
  - apply FloatFacts.add_zero_same_trans.
    + apply FloatFacts.add_zero_same.
      apply FloatFacts.mul_zero_finite;
        [apply FloatFacts.zero_is_zero | apply FloatFacts.is_finite_spec; exact Hde].
    + apply FloatFacts.mul_zero_finite;
        [apply FloatFacts.zero_is_zero | apply FloatFacts.is_finite_spec; exact Hie].
  - apply FloatFacts.sub_finite_not_nan; assumption.
Qed.

Lemma C7_witness :
  exists throttle,
    PIDLongitudinalController.run_step 1 4
      (PIDLongitudinalController.mk 1 0 0 infinity neg_infinity 0.1 [2%float])
    = (Return throttle,
       PIDLongitudinalController.mk 1 0 0 infinity neg_infinity 0.1 [2; 3]%float)
    /\ (throttle =? 4 - 1)%float = true.
Proof.
  apply (C7_unit_gain
           (PIDLongitudinalController.mk 1 0 0 infinity neg_infinity 0.1 [2%float])
           1 4 ((3 - 2) / 0.1) ((0 + 2 + 3) * 0.1));
    vm_compute; reflexivity.
Defined.

(** ** The bearing of a target on the vehicle *)

Module BearingFacts.

Import Binary64 FloatFacts PIDLateralController.

Lemma math_1_finite {S} (f : float -> float) (x : float) (s : S) :
  is_finite (f x) = true -> math_1 f x s = (Return (f x), s).
Proof.
  unfold math_1, is_finite. intros H.
  apply negb_true_iff, orb_false_iff in H. destruct H as [-> ->]. reflexivity.
Qed.

Lemma math_1_nan {S} (f : float -> float) (s : S) :
  is_nan (f nan) = true -> math_1 f nan s = (Return nan, s).
Proof.
  unfold math_1. intros H. rewrite H, (nan_unique _ H).
  rewrite andb_false_r. reflexivity.
Qed.

(** With a zero-length vector to the target the cosine argument is 0/0. *)
Lemma zero_bearing_nan (z0 z1 cv sv : float) :
  sf_zero (Prim2SF z0) -> sf_zero (Prim2SF z1) ->
  sf_finite (Prim2SF cv) -> sf_finite (Prim2SF sv) ->
  Np.divide (Np.dot (z0, z1, 0%float) (cv, sv, 0%float))
            (Np.norm (z0, z1, 0%float) * Np.norm (cv, sv, 0%float))%float
  = nan.
Proof.
  intros Z0 Z1 C S. apply nan_unique. unfold Np.divide, Np.norm, Np.dot.
  apply div_zero_degenerate; [auto 7 with binary64|].
  assert (W : sf_zero (Prim2SF (sqrt (z0 * z0 + z1 * z1 + 0 * 0))))
    by auto 8 with binary64.
  destruct (mul_zero_any _ (sqrt (cv * cv + sv * sv + 0 * 0)) W); auto.
Qed.

Lemma zero_cross (z0 z1 cv sv : float) :
  sf_zero (Prim2SF z0) -> sf_zero (Prim2SF z1) ->
  sf_finite (Prim2SF cv) -> sf_finite (Prim2SF sv) ->
  (snd (Np.cross (cv, sv, 0%float) (z0, z1, 0%float)) <? 0)%float = false.
Proof.
  intros Z0 Z1 C S. cbn [Np.cross snd].
  apply zero_not_negative. auto with binary64.
Qed.

(** The unguarded step on a target that coincides with the vehicle. *)
Lemma degenerate_step (lm : libm) (c : t) (vx vy heading w0 w1 : float) :
  (w0 - vx =? 0)%float = true ->
  (w1 - vy =? 0)%float = true ->
  is_finite (c_cos lm heading) = true ->
  is_finite (c_sin lm heading) = true ->
  is_nan (c_acos lm nan) = true ->
  (_dt c =? 0)%float = false ->
  run_step lm (vx, vy, heading) (w0, w1) c
  = (Return nan,
     mk (_K_P c) (_K_D c) (_K_I c) (_output_max c) (_output_min c) (_dt c)
        (Deque.append nan (_e_buffer c)) (lat_error c ++ [nan])).
Proof.
  intros Hx Hy Hc Hs Ha Hdt.
  unfold run_step, _pid_control, math_cos, math_sin, math_acos.
  unfold bind at 1. rewrite (math_1_finite _ _ _ Hc).
  unfold bind at 1. rewrite (math_1_finite _ _ _ Hs).
  apply is_zero_spec in Hx, Hy. apply is_finite_spec in Hc, Hs.
  rewrite (zero_bearing_nan _ _ _ _ Hx Hy Hc Hs).
  rewrite ClipFacts.clip_nan.
  unfold bind at 1. rewrite (math_1_nan _ _ Ha).
  rewrite (zero_cross _ _ _ _ Hx Hy Hc Hs).
  unfold bind, modify, get.
  cbn [set_log set_buffer _e_buffer _dt lat_error _K_P _K_D _K_I _output_min _output_max].
  match goal with |- context [estimates ?b ?d ?s] =>
    destruct (OverrideFacts.estimates_returns b d s Hdt) as (de & ie & E); rewrite E
  end.
  unfold ret. rewrite mul_nan_r, !add_nan_l, ClipFacts.clip_nan. reflexivity.
Qed.

End BearingFacts.

(** C4 (the source breaks it): the lateral controller has no guard for a
    target that coincides with the vehicle position.  On every such call
    (zero-length vector to the target, finite cosine and sine of the
    heading, non-zero [dt]) [run_step] does not return the neutral
    steering 0 and signals nothing: the 0/0 of the bearing normalization
    propagates, the call returns NaN, and NaN is pushed on the history
    buffer and appended to the diagnostic log. *)
Theorem C4_degenerate_bearing_unguarded (lm : libm) (c : PIDLateralController.t)
    (vx vy heading w0 w1 : float) :
  (w0 - vx =? 0)%float = true ->
  (w1 - vy =? 0)%float = true ->
  is_finite (c_cos lm heading) = true ->
  is_finite (c_sin lm heading) = true ->
  is_nan (c_acos lm nan) = true ->
  (PIDLateralController._dt c =? 0)%float = false ->
  PIDLateralController.run_step lm (vx, vy, heading) (w0, w1) c
  = (Return nan,
     PIDLateralController.mk
       (PIDLateralController._K_P c) (PIDLateralController._K_D c)
       (PIDLateralController._K_I c) (PIDLateralController._output_max c)
       (PIDLateralController._output_min c) (PIDLateralController._dt c)
       (Deque.append nan (PIDLateralController._e_buffer c))
       (PIDLateralController.lat_error c ++ [nan]))
  /\ (nan =? 0)%float = false.
Proof.
  intros Hx Hy Hc Hs Ha Hdt. split; [|reflexivity].
  apply BearingFacts.degenerate_step; assumption.
Qed.

Lemma C4_witness :
  PIDLateralController.run_step libm_table (0, 0, 0)%float (0, 0)%float Scenario.lat0
  = (Return nan, PIDLateralController.mk 2 0.2 0 1 (-1) 0.1 [nan] [nan]).
Proof.
  apply (C4_degenerate_bearing_unguarded libm_table Scenario.lat0 0 0 0 0 0); reflexivity.
Defined.

(** ** The clamping law and where it fails *)

Module ClampLaw.

Import Binary64 FloatFacts ClipFacts.

Lemma clip_in_range_or_nan (x lo hi : float) :
  (lo <=? hi)%float = true ->
  let y := Np.clip x lo hi in
  is_nan y = true \/ ((lo <=? y)%float = true /\ (y <=? hi)%float = true).
Proof.
  intros L y. destruct (is_nan x) eqn:N.
  - left. unfold y. rewrite (nan_unique x N). reflexivity.
  - right. apply clip_bounds; assumption.
Qed.

(** Whatever the longitudinal controller returns is NaN or lies within
    the configured range. *)
Lemma lon_in_range_or_nan (c : PIDLongitudinalController.t)
    (current_speed target_speed throttle : float) :
  (PIDLongitudinalController._output_min c
   <=? PIDLongitudinalController._output_max c)%float = true ->
  fst (PIDLongitudinalController.run_step current_speed target_speed c)
  = Return throttle ->
  is_nan throttle = true
  \/ ((PIDLongitudinalController._output_min c <=? throttle)%float = true
      /\ (throttle <=? PIDLongitudinalController._output_max c)%float = true).
Proof.
  intros L. unfold PIDLongitudinalController.run_step,
    PIDLongitudinalController._pid_control, bind, modify, get.
  destruct (estimates _ _ _) as [[[de ie]|e] c']; cbn [fst ret]; [|discriminate].
  intros [= <-]. apply clip_in_range_or_nan. exact L.
Qed.

(** The same for the lateral controller. *)
Lemma lat_in_range_or_nan (lm : libm) (c : PIDLateralController.t)
    (vehicle_location : float * float * float) (waypoint : float * float)
    (steering : float) :
  (PIDLateralController._output_min c
   <=? PIDLateralController._output_max c)%float = true ->
  fst (PIDLateralController.run_step lm vehicle_location waypoint c) = Return steering ->
  is_nan steering = true
  \/ ((PIDLateralController._output_min c <=? steering)%float = true
      /\ (steering <=? PIDLateralController._output_max c)%float = true).
Proof.
  intros L. destruct vehicle_location as [[vx vy] heading], waypoint as [w0 w1].
  unfold PIDLateralController.run_step, PIDLateralController._pid_control,
    math_cos, math_sin, math_acos.
  unfold bind at 1.
  pure_case (math_1 (c_cos lm) heading c) (math_1_state (c_cos lm) heading c);
    [|discriminate].
  unfold bind at 1.
  pure_case (math_1 (c_sin lm) heading c) (math_1_state (c_sin lm) heading c);
    [|discriminate].
  unfold bind at 1.
  match goal with |- context [math_1 (c_acos lm) ?a c] =>
    pure_case (math_1 (c_acos lm) a c) (math_1_state (c_acos lm) a c); [|discriminate]
  end.
  unfold bind, modify, get.
  destruct (estimates _ _ _) as [[[de ie]|e] c']; cbn [fst ret]; [|discriminate].
  intros [= <-]. apply clip_in_range_or_nan. exact L.
Qed.

End ClampLaw.

(** C1 (the source breaks it): with the default gains, whose ranges are
    not empty, a vehicle standing on the last point of its trajectory gets
    the steering NaN from the tracker, which lies in no range, although
    the docstrings promise a steering in [-1, 1]; and the longitudinal
    controller returns the throttle NaN on the second of two calls with
    finite speeds whose errors overflow. *)
Theorem C1_output_outside_range :
  let lonc := VehiclePIDController._lon_controller
                (VehiclePIDController.self Scenario.tracking_close) in
  let latc := VehiclePIDController._lat_controller
                (VehiclePIDController.self Scenario.tracking_close) in
  (PIDLateralController._output_min latc <=? PIDLateralController._output_max latc)%float
  = true
  /\ fst (VehiclePIDController.run_step libm_table Scenario.on_last_point false
            Scenario.tracking_close)
     = Return (1, nan)%float
  /\ (PIDLateralController._output_min latc <=? nan)%float = false
  /\ (nan <=? PIDLateralController._output_max latc)%float = false
  /\ (PIDLongitudinalController._output_min lonc
      <=? PIDLongitudinalController._output_max lonc)%float = true
  /\ is_finite 1.7e308 = true
  /\ is_finite (-1.7e308) = true
  /\ fst (PIDLongitudinalController.run_step 1.7e308 (-1.7e308)
            (snd (PIDLongitudinalController.run_step (-1.7e308) 1.7e308 lonc)))
     = Return nan.
Proof. vm_compute. repeat split. Qed.

(** * Further properties of the source *)

(** ** More binary64 arithmetic *)

Module FloatMore.

Import Binary64 FloatFacts.

Lemma is_nan_match (x : float) :
  is_nan x = match Prim2SF x with S754_nan => true | _ => false end.
Proof.
  destruct (is_nan x) eqn:N.
  - apply is_nan_spec in N. rewrite N. reflexivity.
  - apply not_nan_spec in N. destruct (Prim2SF x); congruence.
Qed.

Lemma is_infinity_match (x : float) :
  is_infinity x = match Prim2SF x with S754_infinity _ => true | _ => false end.
Proof.
  unfold is_infinity. rewrite FloatAxioms.eqb_spec, abs_spec.
  change (Prim2SF infinity) with (S754_infinity false).
  destruct (Prim2SF x) as [s|s| |s m e]; reflexivity.
Qed.

Lemma eqb_zero_match (x : float) :
  (x =? 0)%float = match Prim2SF x with S754_zero _ => true | _ => false end.
Proof.
  rewrite FloatAxioms.eqb_spec. change (Prim2SF 0) with (S754_zero false).
  destruct (Prim2SF x) as [s|s| |s m e]; try reflexivity; destruct s; reflexivity.
Qed.

Lemma ltb_zero_match (x : float) :
  (x <? 0)%float
  = match Prim2SF x with
    | S754_infinity s | S754_finite s _ _ => s
    | _ => false
    end.
Proof.
  rewrite ltb_spec. change (Prim2SF 0) with (S754_zero false).
  destruct (Prim2SF x) as [s|s| |s m e]; try reflexivity; destruct s; reflexivity.
Qed.

Lemma is_finite_match (x : float) :
  is_finite x
  = match Prim2SF x with S754_zero _ | S754_finite _ _ _ => true | _ => false end.
Proof.
  unfold is_finite. rewrite is_nan_match, is_infinity_match.
  destruct (Prim2SF x); reflexivity.
Qed.

(** The sign given to the rounding only labels its result. *)
Lemma binary_round_aux_opp s m e l :
  binary_round_aux prec emax (negb s) m e l
  = SFopp (binary_round_aux prec emax s m e l).
Proof.
  unfold binary_round_aux.
  destruct (shr_fexp prec emax m e l) as [mrs' e'].
  destruct (shr_fexp prec emax _ e' loc_Exact) as [mrs'' e''].
  destruct (shr_m mrs''); [reflexivity | | reflexivity].
  destruct (_ <=? _)%Z; reflexivity.
Qed.

Lemma binary_normalize_opp k e :
  k <> 0%Z ->
  binary_normalize prec emax (- k) e false
  = SFopp (binary_normalize prec emax k e false).
Proof.
  intros H. destruct k as [|p|p]; [congruence| |].
  - change (- Z.pos p)%Z with (Z.neg p). unfold binary_normalize, binary_round.
    destruct (shl_align _ _ _) as [mz ez]. apply (binary_round_aux_opp false).
  - change (- Z.neg p)%Z with (Z.pos p). unfold binary_normalize, binary_round.
    destruct (shl_align _ _ _) as [mz ez]. apply (binary_round_aux_opp true).
Qed.

(** [b - a] is the opposite of [a - b], up to the sign of a zero. *)
Lemma SFsub_antisym (x y : spec_float) :
  SFsub prec emax x y = SFopp (SFsub prec emax y x)
  \/ (sf_zero (SFsub prec emax x y) /\ sf_zero (SFsub prec emax y x)).
Proof.
  destruct x as [sx|sx| |sx mx ex], y as [sy|sy| |sy my ey];
    try (left; reflexivity);
    try (destruct sx, sy; first [left; reflexivity | right; split; eexists; reflexivity]).
  unfold SFsub. rewrite (Z.min_comm ey ex).
  set (A := cond_Zopp sx _). set (B := cond_Zopp sy _).
  destruct (Z.eq_dec (A - B)%Z 0%Z) as [E|E].
  - right. rewrite E. replace (B - A)%Z with 0%Z by lia.
    split; eexists; reflexivity.
  - left. replace (A - B)%Z with (- (B - A))%Z by lia.
    apply binary_normalize_opp. lia.
Qed.

Lemma abs_sub_swap (a b : float) : abs (a - b) = abs (b - a).
Proof.
  apply Prim2SF_inj. rewrite !abs_spec, !sub_spec. unfold SF64sub.
  destruct (SFsub_antisym (Prim2SF a) (Prim2SF b)) as [E|[[s E] [s' E']]].
  - rewrite E. destruct (SFsub prec emax (Prim2SF b) (Prim2SF a)); reflexivity.
  - rewrite E, E'. reflexivity.
Qed.

(** A finite value minus itself is [+0.0]; an infinity or NaN minus itself
    is NaN. *)
Lemma sub_self (a : float) :
  (a - a)%float = if is_finite a then 0%float else nan.
Proof.
  apply Prim2SF_inj. rewrite sub_spec, is_finite_match. unfold SF64sub.
  destruct (Prim2SF a) as [s|s| |s m e]; try (destruct s; reflexivity).
  - reflexivity.
  - change (Prim2SF 0) with (S754_zero false). unfold SFsub.
    rewrite Z.sub_diag. reflexivity.
Qed.

Lemma add_nan_r (x : float) : (x + nan)%float = nan.
Proof.
  apply Prim2SF_inj. rewrite add_spec. change (Prim2SF nan) with S754_nan.
  destruct (Prim2SF x); reflexivity.
Qed.

Lemma sub_nan_l (x : float) : (nan - x)%float = nan.
Proof. apply Prim2SF_inj. rewrite sub_spec. reflexivity. Qed.

Lemma ltb_nan_r (x : float) : (x <? nan)%float = false.
Proof.
  rewrite ltb_spec. change (Prim2SF nan) with S754_nan.
  destruct (Prim2SF x); reflexivity.
Qed.

End FloatMore.

(** ** [euclidean_distance] *)

Module EuclidFacts.

Import Binary64 FloatFacts FloatMore Euclid.

(** [x ** 2] looks at the magnitude of [x] only. *)
Lemma float_pow2_abs (c_pow : float -> float -> float) (x : float) :
  float_pow2 c_pow x = float_pow2 c_pow (abs x).
Proof.
  unfold float_pow2.
  rewrite !is_nan_match, !is_infinity_match, !eqb_zero_match, !ltb_zero_match, !abs_spec.
  destruct (Prim2SF x) as [s|s| |s m e] eqn:E; cbn [SFabs].
  - reflexivity.
  - f_equal. apply Prim2SF_inj. rewrite !abs_spec, E. reflexivity.
  - f_equal. apply Prim2SF_inj. rewrite abs_spec, E. reflexivity.
  - assert ((if s then (- x)%float else x) = abs x) as ->; [|reflexivity].
    apply Prim2SF_inj. destruct s; rewrite ?opp_spec, abs_spec, E; reflexivity.
Qed.

Lemma float_pow2_swap c_pow (a b : float) :
  float_pow2 c_pow (a - b) = float_pow2 c_pow (b - a).
Proof.
  rewrite (float_pow2_abs c_pow (a - b)), (float_pow2_abs c_pow (b - a)), abs_sub_swap.
  reflexivity.
Qed.

Lemma squares_swap c_pow (v1 : list float) : forall v2,
  squares c_pow (combine v1 v2) = squares c_pow (combine v2 v1).
Proof.
  induction v1 as [|a v1 IH]; intros [|b v2]; try reflexivity.
  cbn [combine squares]. rewrite float_pow2_swap, IH. reflexivity.
Qed.

Lemma combine_longer_l {A B} (v1 extra : list A) : forall v2 : list B,
  length v1 = length v2 -> combine (v1 ++ extra) v2 = combine v1 v2.
Proof.
  induction v1 as [|a v1 IH]; intros [|b v2] H; try discriminate H.
  - destruct extra; reflexivity.
  - cbn [app combine]. f_equal. apply IH. injection H as H. exact H.
Qed.

(** The only exception a square can raise is [OverflowError]. *)
Lemma float_pow2_raises c_pow (x : float) (e : raised) :
  float_pow2 c_pow x = inl e -> e = OverflowError.
Proof.
  unfold float_pow2.
  repeat match goal with |- context [if ?b then _ else _] => destruct b end;
    congruence.
Qed.

Lemma squares_raises c_pow (pairs : list (float * float)) (e : raised) :
  squares c_pow pairs = inl e -> e = OverflowError.
Proof.
  induction pairs as [|[a b] rest IH]; cbn [squares]; [discriminate|].
  destruct (float_pow2 c_pow (a - b)) as [e'|sq] eqn:E.
  - intros [= <-]. apply (float_pow2_raises _ _ _ E).
  - destruct (squares c_pow rest) as [e'|sqs]; [|discriminate].
    intros [= <-]. apply IH. reflexivity.
Qed.

Lemma squares_overflow c_pow (pairs : list (float * float)) (a b : float) :
  In (a, b) pairs ->
  float_pow2 c_pow (a - b) = inl OverflowError ->
  squares c_pow pairs = inl OverflowError.
Proof.
  intros Hin Hp.
  destruct (squares c_pow pairs) as [e|sqs] eqn:E.
  - f_equal. apply (squares_raises _ _ _ E).
  - exfalso. revert sqs E.
    induction pairs as [|[a' b'] rest IH]; [destruct Hin|].
    intros sqs. cbn [squares].
    destruct Hin as [[= -> ->]|Hin].
    + rewrite Hp. discriminate.
    + destruct (float_pow2 c_pow (a' - b')); [discriminate|].
      destruct (squares c_pow rest) as [e|sqs'] eqn:E'; [discriminate|].
      intros _. apply (IH Hin sqs'). reflexivity.
Qed.

Lemma float_pow2_overflow c_pow (d : float) :
  is_finite d = true ->
  (d =? 0)%float = false ->
  (abs d =? 1)%float = false ->
  is_infinity (c_pow (abs d) 2%float) = true ->
  float_pow2 c_pow d = inl OverflowError.
Proof.
  rewrite is_finite_match, eqb_zero_match. intros F Z O I.
  rewrite float_pow2_abs. unfold float_pow2.
  rewrite is_nan_match, is_infinity_match, eqb_zero_match, ltb_zero_match, abs_spec.
  destruct (Prim2SF d) as [s|s| |s m e]; try discriminate.
  cbn [SFabs]. rewrite O, I. reflexivity.
Qed.

Lemma nth_error_combine {A B} (v1 : list A) : forall (v2 : list B) i a b,
  nth_error v1 i = Some a -> nth_error v2 i = Some b -> In (a, b) (combine v1 v2).
Proof.
  induction v1 as [|x v1 IH]; intros [|y v2] [|i] a b H1 H2; try discriminate.
  - injection H1 as <-. injection H2 as <-. left. reflexivity.
  - right. apply (IH v2 i); assumption.
Qed.

(** The squares of a vector against itself. *)
Lemma squares_self c_pow (v : list float) :
  squares c_pow (combine v v)
  = inr (List.map (fun a => if is_finite a then 0%float else nan) v).
Proof.
  induction v as [|a v IH]; [reflexivity|].
  cbn [combine squares List.map]. rewrite sub_self, IH.
  destruct (is_finite a); reflexivity.
Qed.

Lemma sum_zero_or_nan (v : list float) :
  fold_left PrimFloat.add
    (List.map (fun a => if is_finite a then 0%float else nan) v) 0%float
  = (if forallb is_finite v then 0%float else nan)
  /\ fold_left PrimFloat.add
       (List.map (fun a => if is_finite a then 0%float else nan) v) nan
     = nan.
Proof.
  induction v as [|a v [IH0 IHn]]; [split; reflexivity|].
  cbn [List.map fold_left forallb]. rewrite add_nan_l.
  destruct (is_finite a); cbn [andb].
  - split; [exact IH0 | exact IHn].
  - split; exact IHn.
Qed.

End EuclidFacts.

(** X1: [euclidean_distance] is symmetric in floating point, exceptions
    included: swapping the two vectors gives the same value, or the same
    exception, whatever the C library's [pow] is. *)
Theorem X1_euclidean_distance_symmetric (c_pow : float -> float -> float)
    (v1 v2 : list float) :
  Euclid.euclidean_distance c_pow v1 v2 = Euclid.euclidean_distance c_pow v2 v1.
Proof.
  unfold Euclid.euclidean_distance. rewrite EuclidFacts.squares_swap. reflexivity.
Qed.

(** X2: vectors of different lengths are no error for
    [euclidean_distance]: [zip] stops at the shorter one, so the extra
    components of the longer vector, on either side, do not change the
    result. *)
Theorem X2_euclidean_distance_ignores_extra (c_pow : float -> float -> float)
    (v1 v2 extra : list float) :
  length v1 = length v2 ->
  Euclid.euclidean_distance c_pow (v1 ++ extra) v2
  = Euclid.euclidean_distance c_pow v1 v2
  /\ Euclid.euclidean_distance c_pow v1 (v2 ++ extra)
     = Euclid.euclidean_distance c_pow v1 v2.
Proof.
  intros H. unfold Euclid.euclidean_distance. split.
  - rewrite EuclidFacts.combine_longer_l by exact H. reflexivity.
  - rewrite (EuclidFacts.squares_swap c_pow v1 (v2 ++ extra)),
      (EuclidFacts.squares_swap c_pow v1 v2).
    rewrite EuclidFacts.combine_longer_l by (symmetry; exact H). reflexivity.
Qed.

Lemma X2_witness :
  Euclid.euclidean_distance Euclid.pow_table ([3; 4] ++ [0.5])%float [0; 0]%float
  = inr 5%float.
Proof.
  rewrite (proj1 (X2_euclidean_distance_ignores_extra Euclid.pow_table
                    [3; 4]%float [0; 0]%float [0.5%float] eq_refl)).
  reflexivity.
Defined.

(** X3: the distance of a point to itself never raises; it is exactly
    [0.0] when all coordinates are finite, and NaN as soon as one of them
    is an infinity or NaN. *)
Theorem X3_euclidean_distance_self (c_pow : float -> float -> float)
    (v : list float) :
  Euclid.euclidean_distance c_pow v v
  = inr (if forallb is_finite v then 0%float else nan).
Proof.
  unfold Euclid.euclidean_distance. rewrite EuclidFacts.squares_self.
  unfold Py.sum. rewrite (proj1 (EuclidFacts.sum_zero_or_nan v)).
  destruct (forallb is_finite v); reflexivity.
Qed.

(** X4: [euclidean_distance] raises [OverflowError] as soon as the square
    of one coordinate difference overflows: a finite difference, other
    than 0 and of magnitude other than 1, whose [pow] is infinite. *)
Theorem X4_euclidean_distance_overflow (c_pow : float -> float -> float)
    (v1 v2 : list float) (i : nat) (a b : float) :
  nth_error v1 i = Some a ->
  nth_error v2 i = Some b ->
  is_finite (a - b) = true ->
  (a - b =? 0)%float = false ->
  (abs (a - b) =? 1)%float = false ->
  is_infinity (c_pow (abs (a - b)) 2%float) = true ->
  Euclid.euclidean_distance c_pow v1 v2 = inl Euclid.OverflowError.
Proof.
  intros H1 H2 F Z O I. unfold Euclid.euclidean_distance.
  rewrite (EuclidFacts.squares_overflow c_pow (combine v1 v2) a b).
  - reflexivity.
  - apply (EuclidFacts.nth_error_combine v1 v2 i); assumption.
  - apply EuclidFacts.float_pow2_overflow; assumption.
Qed.

Lemma X4_witness :
  Euclid.euclidean_distance Euclid.pow_table [0; 1e200]%float [0; 0]%float
  = inl Euclid.OverflowError.
Proof.
  apply (X4_euclidean_distance_overflow Euclid.pow_table
           [0; 1e200]%float [0; 0]%float 1 1e200%float 0%float);
    reflexivity.
Defined.

(** ** The longitudinal step in closed form *)

Module LonStep.

Import PIDLongitudinalController.

(** After a push on a non-empty buffer, the last two samples are the
    previous last one and the new one, also when the push evicts. *)
Lemma append_ends (x prev : float) (older : list float) :
  exists l, Deque.append x (older ++ [prev]) = l ++ [prev; x].
Proof.
  unfold Deque.append. rewrite <- app_assoc. cbn [app].
  destruct (_ <? _)%nat eqn:E.
  - destruct older as [|o older].
    + apply Nat.ltb_lt in E. cbn in E. unfold Deque.maxlen in E. lia.
    + exists older. reflexivity.
  - exists older. reflexivity.
Qed.

Lemma estimates_ends {S} (l : list float) (prev x dt : float) (s : S) :
  estimates (l ++ [prev; x]) dt s
  = (if (dt =? 0)%float then Raise ZeroDivisionError
     else Return ((x - prev) / dt, Py.sum (l ++ [prev; x]) * dt)%float, s).
Proof.
  unfold estimates.
  assert (L : (2 <=? len (l ++ [prev; x]))%Z = true).
  { apply Z.leb_le. unfold len. rewrite length_app. cbn [length]. lia. }
  rewrite L. unfold bind at 1.
  rewrite (app_assoc l [prev] [x]) at 1. rewrite getitem_last.
  unfold bind at 1. rewrite getitem_second_last.
  unfold bind, float_truediv. destruct (dt =? 0)%float; reflexivity.
Qed.

End LonStep.

(** X5: the longitudinal step in closed form.  The error is pushed in
    every case.  On an empty buffer the call returns the clamped
    [K_P*error + K_D*0.0 + K_I*0.0] and never looks at [dt]; on a buffer
    whose last sample is [prev] it raises [ZeroDivisionError] when [dt] is
    zero and otherwise returns the clamped
    [K_P*error + K_D*((error - prev)/dt) + K_I*(sum(buffer)*dt)], the sum
    being over the buffer after the push. *)
Theorem X5_longitudinal_step_closed_form (c : PIDLongitudinalController.t)
    (current_speed target_speed : float) :
  let error := (target_speed - current_speed)%float in
  let pushed := Deque.append error (PIDLongitudinalController._error_buffer c) in
  let c' := PIDLongitudinalController.set_buffer pushed c in
  let clamp raw :=
    Np.clip raw (PIDLongitudinalController._output_min c)
                (PIDLongitudinalController._output_max c) in
  (PIDLongitudinalController._error_buffer c = [] ->
   PIDLongitudinalController.run_step current_speed target_speed c
   = (Return (clamp (PIDLongitudinalController._K_P c * error
                     + PIDLongitudinalController._K_D c * 0
                     + PIDLongitudinalController._K_I c * 0)%float), c'))
  /\ (forall older prev,
        PIDLongitudinalController._error_buffer c = older ++ [prev] ->
        PIDLongitudinalController.run_step current_speed target_speed c
        = (if (PIDLongitudinalController._dt c =? 0)%float
           then Raise ZeroDivisionError
           else Return
                  (clamp (PIDLongitudinalController._K_P c * error
                          + PIDLongitudinalController._K_D c
                            * ((error - prev) / PIDLongitudinalController._dt c)
                          + PIDLongitudinalController._K_I c
                            * (Py.sum pushed * PIDLongitudinalController._dt c))%float),
           c')).
Proof.
  intros error pushed c' clamp. split.
  - intros E.
    unfold PIDLongitudinalController.run_step, PIDLongitudinalController._pid_control,
      bind, modify, get.
    fold error. fold pushed. fold c'. subst pushed c'. rewrite E. reflexivity.
  - intros older prev E.
    unfold PIDLongitudinalController.run_step, PIDLongitudinalController._pid_control,
      bind, modify, get.
    fold error. fold pushed. fold c'.
    change (PIDLongitudinalController._error_buffer c') with pushed.
    change (PIDLongitudinalController._dt c') with (PIDLongitudinalController._dt c).
    destruct (LonStep.append_ends error prev older) as (l & El).
    assert (Ep : pushed = l ++ [prev; error]) by (unfold pushed; rewrite E; exact El).
    rewrite Ep, LonStep.estimates_ends.
    destruct (_ =? 0)%float; reflexivity.
Qed.

Lemma X5_witness :
  PIDLongitudinalController.run_step 0 1 (PIDLongitudinalController.mk 2 0.5 0 1 0 0 [1%float])
  = (Raise ZeroDivisionError, PIDLongitudinalController.mk 2 0.5 0 1 0 0 [1; 1]%float).
Proof.
  apply (proj2 (X5_longitudinal_step_closed_form
                  (PIDLongitudinalController.mk 2 0.5 0 1 0 0 [1%float]) 0 1) [] 1%float).
  reflexivity.
Defined.

(** ** Ranges of the controller outputs *)

(** X6: with a non-empty range, whatever the longitudinal controller
    returns is NaN or lies within [output_min, output_max]. *)
Theorem X6_longitudinal_output_range (c : PIDLongitudinalController.t)
    (current_speed target_speed throttle : float) :
  (PIDLongitudinalController._output_min c
   <=? PIDLongitudinalController._output_max c)%float = true ->
  fst (PIDLongitudinalController.run_step current_speed target_speed c)
  = Return throttle ->
  is_nan throttle = true
  \/ ((PIDLongitudinalController._output_min c <=? throttle)%float = true
      /\ (throttle <=? PIDLongitudinalController._output_max c)%float = true).
Proof. apply ClampLaw.lon_in_range_or_nan. Qed.

Lemma X6_witness :
  is_nan 1 = true \/ ((0 <=? 1)%float = true /\ (1 <=? 1)%float = true).
Proof.
  apply (X6_longitudinal_output_range Scenario.lon0 0 5 1); reflexivity.
Defined.

(** X7: with a non-empty range, whatever the lateral controller returns
    is NaN or lies within [output_min, output_max], for every libm. *)
Theorem X7_lateral_output_range (lm : libm) (c : PIDLateralController.t)
    (vehicle_location : float * float * float) (waypoint : float * float)
    (steering : float) :
  (PIDLateralController._output_min c
   <=? PIDLateralController._output_max c)%float = true ->
  fst (PIDLateralController.run_step lm vehicle_location waypoint c) = Return steering ->
  is_nan steering = true
  \/ ((PIDLateralController._output_min c <=? steering)%float = true
      /\ (steering <=? PIDLateralController._output_max c)%float = true).
Proof. apply ClampLaw.lat_in_range_or_nan. Qed.

Lemma X7_witness :
  is_nan 1 = true \/ ((-1 <=? 1)%float = true /\ (1 <=? 1)%float = true).
Proof.
  apply (X7_lateral_output_range libm_table Scenario.lat0 (0, 0, 0)%float (0, 1)%float 1);
    reflexivity.
Defined.

(** ** The lateral history is the tail of the log *)

Module LatBuffer.

Import PIDLateralController LatRuns Invariants.

(** A call either fails before it records anything, or records the same
    bearing error in the buffer and in the log. *)
Lemma run_step_records lm vehicle_location waypoint c :
  let c' := snd (run_step lm vehicle_location waypoint c) in
  c' = c
  \/ exists d, _e_buffer c' = Deque.append d (_e_buffer c)
               /\ lat_error c' = lat_error c ++ [d].
Proof.
  destruct vehicle_location as [[vx vy] heading], waypoint as [w0 w1].
  cbv zeta. unfold run_step, _pid_control, math_cos, math_sin, math_acos, bind.
  pure_case (math_1 (c_cos lm) heading c) (math_1_state (c_cos lm) heading c);
    [|left; reflexivity].
  pure_case (math_1 (c_sin lm) heading c) (math_1_state (c_sin lm) heading c);
    [|left; reflexivity].
  match goal with |- context [math_1 (c_acos lm) ?a c] =>
    pure_case (math_1 (c_acos lm) a c) (math_1_state (c_acos lm) a c);
      [|left; reflexivity]
  end.
  unfold modify, get. right.
  match goal with |- context [estimates ?b ?d ?s] =>
    pure_case (estimates b d s) (estimates_state b d s)
  end.
  - match goal with p : (float * float)%type |- _ => destruct p as [de ie] end.
    eexists. split; reflexivity.
  - eexists. split; reflexivity.
Qed.

Lemma run_step_tail lm vehicle_location waypoint c :
  tail_of_log c -> tail_of_log (snd (run_step lm vehicle_location waypoint c)).
Proof.
  intros [[older E] L].
  destruct (run_step_records lm vehicle_location waypoint c) as [->|(d & Eb & El)].
  - split; [exists older; exact E | exact L].
  - unfold tail_of_log. rewrite Eb, El, E. split; [|apply append_length; exact L].
    destruct (Nat.eq_dec (length (_e_buffer c)) Deque.maxlen) as [F|F].
    + rewrite append_full by exact F.
      destruct (_e_buffer c) as [|x b]; [discriminate F|].
      exists (older ++ [x]). cbn [tl]. rewrite <- !app_assoc. reflexivity.
    + rewrite append_room by lia. exists older. rewrite app_assoc. reflexivity.
Qed.

Lemma run_calls_tail lm calls : forall c,
  tail_of_log c -> tail_of_log (run_calls lm calls c).
Proof.
  induction calls as [|[loc wp| |kp ki kd dt'] rest IH]; intros c H; cbn [run_calls].
  - exact H.
  - apply IH, run_step_tail, H.
  - apply IH. split; [exists (lat_error c); cbn; symmetry; apply app_nil_r | cbn; lia].
  - apply IH. exact H.
Qed.

End LatBuffer.

(** X8: on a lateral controller whose history buffer is the tail of its
    diagnostic log (as after construction), every sequence of control
    ticks, resets and parameter changes keeps it so: the buffer is always
    the last entries of the log, at most 10 of them. *)
Theorem X8_lateral_history_tail_of_log (lm : libm) (calls : list LatRuns.call)
    (c : PIDLateralController.t) :
  Invariants.tail_of_log c ->
  Invariants.tail_of_log (LatRuns.run_calls lm calls c).
Proof. intros H. apply LatBuffer.run_calls_tail. exact H. Qed.

Lemma X8_witness :
  Invariants.tail_of_log
    (LatRuns.run_calls libm_table
       [LatRuns.Step (0, 0, 0)%float (0, 1)%float; LatRuns.Reset;
        LatRuns.Step (0, 0, 0)%float (1, 0)%float]
       Scenario.lat0).
Proof.
  apply X8_lateral_history_tail_of_log.
  split; [exists []; reflexivity | cbn; lia].
Defined.

(** ** Progress of the tracker *)

Module Progress.

Import VehiclePIDController Search Invariants.

(** A tick that returns in the Tracking state moves the cursor forward. *)
Lemma returning_tick_advances lm p f w command :
  (0 <= waypoint_index (self w) < len (the_traj w) - 1)%Z ->
  fst (run_step lm p f w) = Return command ->
  (waypoint_index (self w) < waypoint_index (self (snd (run_step lm p f w))))%Z.
Proof.
  intros H.
  destruct (TrackerFacts.run_step_tracking lm p f w H) as (j & tp & _ & Hj & _ & Hr).
  rewrite Hr. unfold tick.
  destruct (Lon.run_step _ _ _) as [[th|e] c1]; [|discriminate].
  destruct (Lat.run_step _ _ _ _) as [[st|e] c2]; [|discriminate].
  intros _. cbn. lia.
Qed.

Lemma all_return_progress lm calls : forall w,
  (0 <= waypoint_index (self w) <= len (the_traj w))%Z ->
  all_return lm calls w ->
  (Z.min (waypoint_index (self w) + Z.of_nat (length calls)) (len (the_traj w) - 1)
   <= waypoint_index (self (after lm calls w)))%Z.
Proof.
  induction calls as [|[p f] calls IH]; intros w H A.
  - cbn. lia.
  - destruct A as [[command R] A]. cbn [fst snd] in R, A.
    change (after lm ((p, f) :: calls) w) with (after lm calls (snd (run_step lm p f w))).
    destruct (CursorFacts.run_step_cursor lm p f w H) as (Hs & Ht & Hi).
    assert (Htr : the_traj (snd (run_step lm p f w)) = the_traj w).
    { unfold the_traj. rewrite Hs, Ht. reflexivity. }
    specialize (IH (snd (run_step lm p f w))). rewrite Htr in IH.
    specialize (IH ltac:(lia) A).
    destruct (Z.lt_ge_cases (waypoint_index (self w)) (len (the_traj w) - 1)) as [T|F].
    + pose proof (returning_tick_advances lm p f w command ltac:(lia) R) as Adv.
      cbn [length]. lia.
    + cbn [length]. lia.
Qed.

End Progress.

(** X9: every tick that returns in the Tracking state moves the cursor
    forward, so a trajectory is finished after at most
    [len(trajectory) - 1] returning calls: after [n] calls that all return
    the cursor is at least [min(cursor + n, len(trajectory) - 1)]. *)
Theorem X9_tracker_progress (lm : libm) (calls : list (VehicleLocation.t * bool))
    (w : VehiclePIDController.world) :
  let cursor := VehiclePIDController.waypoint_index (VehiclePIDController.self w) in
  let n := len (VehiclePIDController.the_traj w) in
  (0 <= cursor <= n)%Z ->
  Invariants.all_return lm calls w ->
  (Z.min (cursor + Z.of_nat (length calls)) (n - 1)
   <= VehiclePIDController.waypoint_index
        (VehiclePIDController.self (Search.after lm calls w)))%Z
  /\ ((n - 1 <= cursor + Z.of_nat (length calls))%Z ->
      forall p f,
        VehiclePIDController.run_step lm p f (Search.after lm calls w)
        = (Return (0, 0)%float, Search.after lm calls w)).
Proof.
  intros cursor n H A.
  pose proof (Progress.all_return_progress lm calls w H A) as P.
  split; [exact P|].
  intros Hn p f. apply TrackerFacts.run_step_finished.
  destruct (CursorFacts.after_cursor lm calls w H) as (Htr & _).
  rewrite Htr. fold n. fold cursor in P. lia.
Qed.

Lemma X9_witness :
  VehiclePIDController.run_step libm_table Scenario.at_origin false
    (Search.after libm_table [(Scenario.at_origin, false); (Scenario.at_origin, true)]
       Scenario.tracking)
  = (Return (0, 0)%float,
     Search.after libm_table [(Scenario.at_origin, false); (Scenario.at_origin, true)]
       Scenario.tracking).
Proof.
  apply (X9_tracker_progress libm_table
           [(Scenario.at_origin, false); (Scenario.at_origin, true)] Scenario.tracking).
  - vm_compute. split; discriminate.
  - vm_compute. repeat split; eexists; reflexivity.
  - vm_compute. discriminate.
Defined.

(** ** Trajectories too short to track *)

Module Idle.

Import VehiclePIDController Search.

Lemma after_finished lm calls : forall w,
  (len (the_traj w) - 1 <= waypoint_index (self w))%Z -> after lm calls w = w.
Proof.
  induction calls as [|[p f] calls IH]; intros w H; [reflexivity|].
  change (after lm ((p, f) :: calls) w) with (after lm calls (snd (run_step lm p f w))).
  rewrite TrackerFacts.run_step_finished by exact H. cbn [snd]. apply IH. exact H.
Qed.

End Idle.

(** X10: a trajectory with fewer than two points is never tracked: after
    [set_traj] on an empty or one-point list, every call returns
    [(0.0, 0.0)], and no sequence of calls changes the cursor, the
    controllers or the store. *)
Theorem X10_short_trajectory_idle (lm : libm) (w : VehiclePIDController.world)
    (r : VehiclePIDController.ref) (calls : list (VehicleLocation.t * bool))
    (p : VehicleLocation.t) (f : bool) :
  let w0 := snd (VehiclePIDController.set_traj r w) in
  (len (VehiclePIDController.deref (VehiclePIDController.store w) r) <= 1)%Z ->
  Search.after lm calls w0 = w0
  /\ VehiclePIDController.run_step lm p f (Search.after lm calls w0)
     = (Return (0, 0)%float, w0).
Proof.
  intros w0 H.
  assert (F : (len (VehiclePIDController.the_traj w0) - 1
               <= VehiclePIDController.waypoint_index (VehiclePIDController.self w0))%Z).
  { change (VehiclePIDController.the_traj w0)
      with (VehiclePIDController.deref (VehiclePIDController.store w) r).
    change (VehiclePIDController.waypoint_index (VehiclePIDController.self w0)) with 0%Z.
    lia. }
  rewrite Idle.after_finished by exact F.
  split; [reflexivity|]. apply TrackerFacts.run_step_finished. exact F.
Qed.

Lemma X10_witness :
  VehiclePIDController.run_step libm_table Scenario.at_origin false
    (Search.after libm_table [(Scenario.at_origin, true)]
       (snd (VehiclePIDController.set_traj 0%nat Scenario.tracking)))
  = (Return (0, 0)%float, snd (VehiclePIDController.set_traj 0%nat Scenario.tracking)).
Proof.
  apply (X10_short_trajectory_idle libm_table Scenario.tracking 0%nat
           [(Scenario.at_origin, true)] Scenario.at_origin false).
  vm_compute. discriminate.
Defined.

(** ** Reset and construction of the tracker *)

Module ResetFacts.

Import VehiclePIDController.

Lemma reset_state (w : world) :
  snd (reset w)
  = World (<[traj (self w) := []]> (store w))
      (mk (_look_ahead (self w))
          (Lon.set_buffer Deque.empty (_lon_controller (self w)))
          (Lat.set_buffer Deque.empty (_lat_controller (self w)))
          (traj (self w)) (goal (self w)) 0).
Proof. reflexivity. Qed.

Lemma reset_trajectory (w : world) : the_traj (snd (reset w)) = [].
Proof.
  rewrite reset_state. unfold the_traj, deref. cbn [store self traj].
  rewrite lookup_insert_eq. reflexivity.
Qed.

End ResetFacts.

(** X11: how [reset()] composes.  It is idempotent; it leaves the tracker
    in the Finished state, where every call returns [(0.0, 0.0)]; it
    empties the history buffers of both controllers and keeps their gains
    and the lateral log; and, the trajectory list having been emptied in
    place, handing the same list back to [set_traj] does not resume the
    tracking: the calls still return [(0.0, 0.0)]. *)
Theorem X11_reset_composition (lm : libm) (w : VehiclePIDController.world)
    (p : VehicleLocation.t) (f : bool) :
  let w1 := snd (VehiclePIDController.reset w) in
  let again := snd (VehiclePIDController.set_traj
                      (VehiclePIDController.traj (VehiclePIDController.self w)) w1) in
  snd (VehiclePIDController.reset w1) = w1
  /\ VehiclePIDController.run_step lm p f w1 = (Return (0, 0)%float, w1)
  /\ VehiclePIDController._lon_controller (VehiclePIDController.self w1)
     = PIDLongitudinalController.set_buffer []
         (VehiclePIDController._lon_controller (VehiclePIDController.self w))
  /\ VehiclePIDController._lat_controller (VehiclePIDController.self w1)
     = PIDLateralController.set_buffer []
         (VehiclePIDController._lat_controller (VehiclePIDController.self w))
  /\ VehiclePIDController.the_traj again = []
  /\ VehiclePIDController.run_step lm p f again = (Return (0, 0)%float, again).
Proof.
  intros w1 again.
  assert (T1 : VehiclePIDController.the_traj w1 = []) by apply ResetFacts.reset_trajectory.
  assert (T2 : VehiclePIDController.the_traj again = []).
  { change (VehiclePIDController.the_traj again) with (VehiclePIDController.the_traj w1).
    exact T1. }
  split.
  - unfold w1. rewrite !ResetFacts.reset_state. cbn [VehiclePIDController.store
      VehiclePIDController.self VehiclePIDController.traj
      VehiclePIDController._look_ahead VehiclePIDController._lon_controller
      VehiclePIDController._lat_controller VehiclePIDController.goal].
    rewrite insert_insert_eq. reflexivity.
  - split.
    { apply TrackerFacts.run_step_finished. rewrite T1.
      change (VehiclePIDController.waypoint_index (VehiclePIDController.self w1))
        with 0%Z. unfold len. simpl length. lia. }
    split; [reflexivity|]. split; [reflexivity|]. split; [exact T2|].
    apply TrackerFacts.run_step_finished. rewrite T2.
    change (VehiclePIDController.waypoint_index (VehiclePIDController.self again))
      with 0%Z. unfold len. simpl length. lia.
Qed.



(** ** Failing ticks and the range of the commands *)

Module TickFacts.

Import VehiclePIDController Search Invariants.


Lemma tick_range lm p j tp w throttle steering :
  (Lon._output_min (_lon_controller (self w))
   <=? Lon._output_max (_lon_controller (self w)))%float = true ->
  (Lat._output_min (_lat_controller (self w))
   <=? Lat._output_max (_lat_controller (self w)))%float = true ->
  fst (tick lm p false j tp w) = Return (throttle, steering) ->
  nan_or_within (Lon._output_min (_lon_controller (self w)))
                (Lon._output_max (_lon_controller (self w))) throttle
  /\ nan_or_within (Lat._output_min (_lat_controller (self w)))
                   (Lat._output_max (_lat_controller (self w))) steering.
Proof.
  intros Ln Lt. unfold tick.
  pose proof (ClampLaw.lon_in_range_or_nan (_lon_controller (self w))
                (VehicleLocation.velocity p) (wp_target_speed tp)) as HL.
  pose proof (ClampLaw.lat_in_range_or_nan lm (_lat_controller (self w))
                (location p) (wp_x tp, wp_y tp)) as HT.
  destruct (Lon.run_step _ _ _) as [[th|e1] c1]; [|discriminate].
  destruct (Lat.run_step _ _ _ _) as [[st|e2] c2]; [|discriminate].
  cbn [fst]. intros [= <- <-]. split.
  - apply (HL th Ln). reflexivity.
  - apply (HT st Lt). reflexivity.
Qed.

End TickFacts.



(** X14: the commands [run_step] returns without the throttle override,
    from any state with a non-negative cursor and non-empty output ranges:
    either the tracker is Finished and the command is [(0.0, 0.0)],
    whatever the ranges are, or the throttle is NaN or within the
    longitudinal range and the steering is NaN or within the lateral
    range. *)
Theorem X14_command_range (lm : libm) (p : VehicleLocation.t)
    (w : VehiclePIDController.world) (throttle steering : float) :
  let lonc := VehiclePIDController._lon_controller (VehiclePIDController.self w) in
  let latc := VehiclePIDController._lat_controller (VehiclePIDController.self w) in
  let cursor := VehiclePIDController.waypoint_index (VehiclePIDController.self w) in
  (0 <= cursor)%Z ->
  (PIDLongitudinalController._output_min lonc
   <=? PIDLongitudinalController._output_max lonc)%float = true ->
  (PIDLateralController._output_min latc
   <=? PIDLateralController._output_max latc)%float = true ->
  fst (VehiclePIDController.run_step lm p false w) = Return (throttle, steering) ->
  ((len (VehiclePIDController.the_traj w) - 1 <= cursor)%Z
   /\ throttle = 0%float /\ steering = 0%float)
  \/ (Invariants.nan_or_within (PIDLongitudinalController._output_min lonc)
         (PIDLongitudinalController._output_max lonc) throttle
      /\ Invariants.nan_or_within (PIDLateralController._output_min latc)
           (PIDLateralController._output_max latc) steering).
Proof.
  intros lonc latc cursor H0 Ln Lt R.
  destruct (Z.le_gt_cases (len (VehiclePIDController.the_traj w) - 1) cursor) as [F|T].
  - left. rewrite TrackerFacts.run_step_finished in R by exact F.
    injection R as <- <-. auto.
  - right.
    destruct (TrackerFacts.run_step_tracking lm p false w) as (j & tp & _ & _ & _ & Ht);
      [fold cursor; lia|].
    rewrite Ht in R. apply (TickFacts.tick_range lm p j tp w); assumption.
Qed.

Lemma X14_witness :
  Invariants.nan_or_within 0 1 1 /\ Invariants.nan_or_within (-1) 1 0.
Proof.
  pose proof (X14_command_range libm_table Scenario.at_origin Scenario.tracking 1 0) as H.
  cbv zeta in H.
  specialize (H ltac:(vm_compute; discriminate) eq_refl eq_refl eq_refl).
  destruct H as [(F & _)|H].
  - vm_compute in F. exfalso. apply F. reflexivity.
  - exact H.
Defined.

(** ** A pose that is not a number *)

Module NanPose.

Import FloatFacts FloatMore VehiclePIDController Search.

Lemma norm2_nan_l (y : float) : Np.norm2 (nan, y) = nan.
Proof.
  unfold Np.norm2. change (nan * nan)%float with nan. rewrite add_nan_l. reflexivity.
Qed.

Lemma norm2_nan_r (x : float) : Np.norm2 (x, nan) = nan.
Proof.
  unfold Np.norm2. change (nan * nan)%float with nan. rewrite add_nan_r. reflexivity.
Qed.

(** No point is beyond the look-ahead radius of a NaN position: the
    comparison with NaN is false. *)
Lemma beyond_nan (look_ahead x y heading : float) (tp : Waypoint) :
  is_nan x = true \/ is_nan y = true ->
  beyond look_ahead (x, y, heading) tp = false.
Proof.
  intros [H|H]; apply nan_unique in H; subst; unfold beyond; cbn [fst snd].
  - rewrite sub_nan_l, norm2_nan_l. apply ltb_nan_r.
  - rewrite sub_nan_l, norm2_nan_r. apply ltb_nan_r.
Qed.

End NanPose.

(** X15: a pose whose [x] or [y] is NaN ends the tracking.  In the
    Tracking state the search then passes over every remaining waypoint
    (no distance compares greater than the look-ahead), the tick runs on
    the last waypoint, and if the call returns the tracker is Finished. *)
Theorem X15_nan_pose_skips_to_last (lm : libm) (p : VehicleLocation.t) (f : bool)
    (w : VehiclePIDController.world) :
  let cursor := VehiclePIDController.waypoint_index (VehiclePIDController.self w) in
  let trajectory := VehiclePIDController.the_traj w in
  let last := (len trajectory - 1)%Z in
  (0 <= cursor < last)%Z ->
  is_nan (VehicleLocation.x p) = true \/ is_nan (VehicleLocation.y p) = true ->
  exists tp,
    nth_error trajectory (Z.to_nat last) = Some tp
    /\ VehiclePIDController.advance (Search.fuel_of w) (Search.location p) w
       = (Return tt, VehiclePIDController.set_index last w)
    /\ VehiclePIDController.run_step lm p f w = Search.tick lm p f last tp w
    /\ (forall command,
          fst (VehiclePIDController.run_step lm p f w) = Return command ->
          VehiclePIDController.waypoint_index
            (VehiclePIDController.self (snd (VehiclePIDController.run_step lm p f w)))
          = len trajectory).
Proof.
  intros cursor trajectory last H N.
  destruct (TrackerFacts.run_step_tracking lm p f w H) as (j & tp & E & Hj & Hn & Ht).
  destruct (TrackerFacts.advance_spec (Search.location p) (Search.fuel_of w) w)
    as (j' & E' & _ & _ & _ & Hb); [lia | unfold Search.fuel_of; lia |].
  assert (j' = j) as -> by (rewrite E in E'; injection E' as E'; symmetry; exact E').
  assert (j = last) as ->.
  { destruct (Z.lt_ge_cases j last) as [L|G]; [|fold trajectory in Hj; fold last in Hj; lia].
    destruct (Hb L) as (tq & _ & B).
    unfold Search.location in B. rewrite NanPose.beyond_nan in B by exact N.
    discriminate B. }
  exists tp. split; [exact Hn|]. split; [exact E|]. split; [exact Ht|].
  intros command. rewrite Ht. unfold Search.tick.
  destruct (PIDLongitudinalController.run_step _ _ _) as [[th|e] c1]; [|discriminate].
  destruct (PIDLateralController.run_step _ _ _ _) as [[st|e] c2]; [|discriminate].
  intros _. cbn. unfold last. lia.
Qed.

Lemma X15_witness :
  exists tp,
    nth_error Scenario.waypoints 2 = Some tp
    /\ VehiclePIDController.advance (Search.fuel_of Scenario.tracking)
         (Search.location (VehicleLocation.mk nan 0 0 0)) Scenario.tracking
       = (Return tt, VehiclePIDController.set_index 2 Scenario.tracking).
Proof.
  destruct (X15_nan_pose_skips_to_last libm_table (VehicleLocation.mk nan 0 0 0) false
              Scenario.tracking) as (tp & Hn & E & _).
  - vm_compute. split; [discriminate | reflexivity].
  - left. reflexivity.
  - exists tp. split; [exact Hn | exact E].
Defined.

(** ** Reset and retuning of the longitudinal controller *)

(** X16: how [reset()] and [change_parameters] compose with the step of
    the longitudinal controller.  The first call after [reset()] is purely
    proportional: it returns the clamped [K_P*error + K_D*0.0 + K_I*0.0]
    and cannot raise, whatever [dt] is.  The first call after
    [change_parameters] uses the new gains and the new [dt] on the old
    history and within the old output range: its derivative spans the
    change, from the last error recorded before it. *)
Theorem X16_longitudinal_reset_and_retune (c : PIDLongitudinalController.t)
    (current_speed target_speed kp ki kd dt' : float) :
  let error := (target_speed - current_speed)%float in
  let pushed := Deque.append error (PIDLongitudinalController._error_buffer c) in
  let lo := PIDLongitudinalController._output_min c in
  let hi := PIDLongitudinalController._output_max c in
  PIDLongitudinalController.run_step current_speed target_speed
    (snd (PIDLongitudinalController.reset c))
  = (Return (Np.clip (PIDLongitudinalController._K_P c * error
                      + PIDLongitudinalController._K_D c * 0
                      + PIDLongitudinalController._K_I c * 0)%float lo hi),
     PIDLongitudinalController.set_buffer [error] c)
  /\ (forall older prev,
        PIDLongitudinalController._error_buffer c = older ++ [prev] ->
        PIDLongitudinalController.run_step current_speed target_speed
          (snd (PIDLongitudinalController.change_parameters kp ki kd dt' c))
        = (if (dt' =? 0)%float then Raise ZeroDivisionError
           else Return (Np.clip (kp * error + kd * ((error - prev) / dt')
                                 + ki * (Py.sum pushed * dt'))%float lo hi),
           PIDLongitudinalController.mk kp kd ki hi lo dt' pushed)).
Proof.
  intros error pushed lo hi. split; [reflexivity|].
  intros older prev E.
  unfold PIDLongitudinalController.run_step, PIDLongitudinalController._pid_control,
    PIDLongitudinalController.change_parameters, bind, modify, get.
  cbn [snd PIDLongitudinalController._error_buffer PIDLongitudinalController._dt
       PIDLongitudinalController._K_P PIDLongitudinalController._K_D
       PIDLongitudinalController._K_I PIDLongitudinalController._output_min
       PIDLongitudinalController._output_max PIDLongitudinalController.set_buffer].
  fold error. fold pushed.
  destruct (LonStep.append_ends error prev older) as (l & El).
  assert (Ep : pushed = l ++ [prev; error]) by (unfold pushed; rewrite E; exact El).
  rewrite Ep, LonStep.estimates_ends.
  destruct (dt' =? 0)%float; reflexivity.
Qed.

Lemma X16_witness :
  PIDLongitudinalController.run_step 0 1
    (snd (PIDLongitudinalController.change_parameters 1 0 0 0
            (PIDLongitudinalController.mk 2 0.5 0 1 0 0.1 [1%float])))
  = (Raise ZeroDivisionError, PIDLongitudinalController.mk 1 0 0 1 0 0 [1; 1]%float).
Proof.
  apply (proj2 (X16_longitudinal_reset_and_retune
                  (PIDLongitudinalController.mk 2 0.5 0 1 0 0.1 [1%float]) 0 1 1 0 0 0)
           [] 1%float).
  reflexivity.
Defined.

(** ** Replacing the trajectory *)

(** X17: how [set_traj] composes.  Of two [set_traj] calls in a row the
    last one wins, and neither touches the controllers or any list; after
    the replacement a [reset()] empties the new list and leaves the
    replaced one as it was. *)
Theorem X17_set_traj_composition (w : VehiclePIDController.world)
    (r1 r2 : VehiclePIDController.ref) :
  let w2 := snd (VehiclePIDController.set_traj r2
                   (snd (VehiclePIDController.set_traj r1 w))) in
  w2 = snd (VehiclePIDController.set_traj r2 w)
  /\ VehiclePIDController.store w2 = VehiclePIDController.store w
  /\ VehiclePIDController._lon_controller (VehiclePIDController.self w2)
     = VehiclePIDController._lon_controller (VehiclePIDController.self w)
  /\ VehiclePIDController._lat_controller (VehiclePIDController.self w2)
     = VehiclePIDController._lat_controller (VehiclePIDController.self w)
  /\ VehiclePIDController.deref
       (VehiclePIDController.store (snd (VehiclePIDController.reset w2))) r2 = []
  /\ (r1 <> r2 ->
      VehiclePIDController.store (snd (VehiclePIDController.reset w2)) !! r1
      = VehiclePIDController.store w !! r1).
Proof.
  intros w2. do 4 (split; [reflexivity|]).
  rewrite ResetFacts.reset_state.
  cbn [VehiclePIDController.store]. change (VehiclePIDController.traj
    (VehiclePIDController.self w2)) with r2.
  change (VehiclePIDController.store w2) with (VehiclePIDController.store w).
  split.
  - unfold VehiclePIDController.deref. rewrite lookup_insert_eq. reflexivity.
  - intros H. apply lookup_insert_ne. congruence.
Qed.

Lemma X17_witness :
  VehiclePIDController.store
    (snd (VehiclePIDController.reset
            (snd (VehiclePIDController.set_traj 0%nat
                    (snd (VehiclePIDController.set_traj 1%nat Scenario.tracking))))))
  !! 1%nat
  = Some Scenario.waypoints.
Proof.
  pose proof (X17_set_traj_composition Scenario.tracking 1%nat 0%nat) as H.
  cbv zeta in H. destruct H as (_ & _ & _ & _ & _ & H).
  transitivity (VehiclePIDController.store Scenario.tracking !! 1%nat);
    [apply H; discriminate | reflexivity].
Defined.

(** ** What a call can raise *)

Module RaiseFacts.

Import VehiclePIDController Search.

Lemma estimates_raises {S} (buffer : list float) (dt : float) (s : S) (e : exn) :
  fst (estimates buffer dt s) = Raise e ->
  e = ZeroDivisionError /\ (dt =? 0)%float = true /\ (2 <= length buffer)%nat.
Proof.
  rewrite estimates_spec.
  destruct (2 <=? len buffer)%Z eqn:L; [|discriminate].
  destruct (dt =? 0)%float; [|discriminate].
  cbn. intros [= <-]. apply Z.leb_le in L. unfold len in L.
  split; [reflexivity|]. split; [reflexivity | lia].
Qed.

Lemma math_1_raises {S} (f : float -> float) (x : float) (s : S) (e : exn) :
  fst (math_1 f x s) = Raise e -> e = ValueError.
Proof.
  unfold math_1. destruct (_ && _); [intros [= <-]; reflexivity|].
  destruct (_ && _); [intros [= <-]; reflexivity | discriminate].
Qed.

Lemma lon_raises current_speed target_speed (c : Lon.t) (e : exn) :
  fst (Lon.run_step current_speed target_speed c) = Raise e ->
  e = ZeroDivisionError /\ (Lon._dt c =? 0)%float = true.
Proof.
  unfold Lon.run_step, Lon._pid_control, bind, modify, get.
  match goal with |- context [estimates ?b ?d ?s] =>
    pose proof (estimates_raises b d s) as H; destruct (estimates b d s) as [[[de ie]|e'] s']
  end; [discriminate|].
  cbn [fst] in *. intros [= <-]. destruct (H e' eq_refl) as (-> & D & _). auto.
Qed.

Lemma lat_raises lm vehicle_location waypoint (c : Lat.t) (e : exn) :
  fst (Lat.run_step lm vehicle_location waypoint c) = Raise e ->
  e = ValueError \/ (e = ZeroDivisionError /\ (Lat._dt c =? 0)%float = true).
Proof.
  destruct vehicle_location as [[vx vy] heading], waypoint as [w0 w1].
  unfold Lat.run_step, Lat._pid_control, math_cos, math_sin, math_acos, bind.
  pose proof (math_1_raises (c_cos lm) heading c) as R1.
  pure_case (math_1 (c_cos lm) heading c) (math_1_state (c_cos lm) heading c);
    [|intros [= <-]; left; apply R1; reflexivity].
  pose proof (math_1_raises (c_sin lm) heading c) as R2.
  pure_case (math_1 (c_sin lm) heading c) (math_1_state (c_sin lm) heading c);
    [|intros [= <-]; left; apply R2; reflexivity].
  match goal with |- context [math_1 (c_acos lm) ?a c] =>
    pose proof (math_1_raises (c_acos lm) a c) as R3;
    pure_case (math_1 (c_acos lm) a c) (math_1_state (c_acos lm) a c);
      [|intros [= <-]; left; apply R3; reflexivity]
  end.
  unfold modify, get.
  match goal with |- context [estimates ?b ?d ?s] =>
    pose proof (estimates_raises b d s) as H; destruct (estimates b d s) as [[[de ie]|e'] s']
  end; [discriminate|].
  cbn [fst] in *. intros [= <-]. destruct (H e' eq_refl) as (-> & D & _).
  right. split; [reflexivity|]. exact D.
Qed.

End RaiseFacts.

(** X18: what [run_step] of the tracker can raise.  From a state with a
    non-negative cursor a call raises only in the Tracking state, and then
    only [ZeroDivisionError], with a zero [dt] in one of the controllers,
    or the [ValueError] of a [math] domain error; indexing the trajectory
    never fails. *)
Theorem X18_run_step_exceptions (lm : libm) (p : VehicleLocation.t) (f : bool)
    (w : VehiclePIDController.world) (e : exn) :
  let cursor := VehiclePIDController.waypoint_index (VehiclePIDController.self w) in
  let lonc := VehiclePIDController._lon_controller (VehiclePIDController.self w) in
  let latc := VehiclePIDController._lat_controller (VehiclePIDController.self w) in
  (0 <= cursor)%Z ->
  fst (VehiclePIDController.run_step lm p f w) = Raise e ->
  (cursor < len (VehiclePIDController.the_traj w) - 1)%Z
  /\ e <> IndexError
  /\ (e = ValueError
      \/ (e = ZeroDivisionError
          /\ ((PIDLongitudinalController._dt lonc =? 0)%float = true
              \/ (PIDLateralController._dt latc =? 0)%float = true))).
Proof.
  intros cursor lonc latc H0 R.
  destruct (Z.le_gt_cases (len (VehiclePIDController.the_traj w) - 1) cursor) as [F|T].
  { rewrite TrackerFacts.run_step_finished in R by exact F. discriminate R. }
  split; [lia|].
  destruct (TrackerFacts.run_step_tracking lm p f w) as (j & tp & _ & _ & _ & Ht);
    [fold cursor; lia|].
  rewrite Ht in R. unfold Search.tick in R.
  pose proof (RaiseFacts.lon_raises (VehicleLocation.velocity p) (wp_target_speed tp) lonc)
    as HL.
  pose proof (RaiseFacts.lat_raises lm (Search.location p) (wp_x tp, wp_y tp) latc) as HT.
  fold lonc latc in R.
  destruct (PIDLongitudinalController.run_step _ _ lonc) as [[th|e1] c1].
  - destruct (PIDLateralController.run_step _ _ _ latc) as [[st|e2] c2]; [discriminate R|].
    cbn [fst] in R, HT. injection R as <-.
    destruct (HT e2 eq_refl) as [->|[-> D]].
    + split; [discriminate | left; reflexivity].
    + split; [discriminate | right; split; [reflexivity | right; exact D]].
  - cbn [fst] in R, HL. injection R as <-.
    destruct (HL e1 eq_refl) as [-> D].
    split; [discriminate | right; split; [reflexivity | left; exact D]].
Qed.

Lemma X18_witness :
  ZeroDivisionError <> IndexError.
Proof.
  pose proof (X18_run_step_exceptions libm_table Scenario.at_origin false
                (VehiclePIDController.set_lon
                   (PIDLongitudinalController.mk 2 0.1 0 1 0 0 [5%float])
                   Scenario.tracking)
                ZeroDivisionError) as H.
  cbv zeta in H.
  specialize (H ltac:(vm_compute; discriminate) eq_refl).
  exact (proj1 (proj2 H)).
Defined.

(** X19: what the lateral controller can raise: the [ValueError] of a
    [math] domain error (libm returning NaN or an infinity where its
    argument does not call for it), or [ZeroDivisionError] when [dt] is
    zero; the negative indexing of the history buffer never fails. *)
Theorem X19_lateral_exceptions (lm : libm) (c : PIDLateralController.t)
    (vehicle_location : float * float * float) (waypoint : float * float) (e : exn) :
  fst (PIDLateralController.run_step lm vehicle_location waypoint c) = Raise e ->
  e <> IndexError
  /\ (e = ValueError
      \/ (e = ZeroDivisionError /\ (PIDLateralController._dt c =? 0)%float = true)).
Proof.
  intros R.
  destruct (RaiseFacts.lat_raises lm vehicle_location waypoint c e R) as [->|[-> D]].
  - split; [discriminate | left; reflexivity].
  - split; [discriminate | right; split; [reflexivity | exact D]].
Qed.

Lemma X19_witness :
  ZeroDivisionError = ValueError
  \/ (ZeroDivisionError = ZeroDivisionError /\ (0 =? 0)%float = true).
Proof.
  exact (proj2 (X19_lateral_exceptions libm_table
                  (PIDLateralController.mk 2 0.2 0 1 (-1) 0 [0%float] [0%float])
                  (0, 0, 0)%float (0, 1)%float ZeroDivisionError eq_refl)).
Defined.

(** ** Configuration *)

(** What a zero [dt] does to a control tick: nothing on an empty history,
    a [ZeroDivisionError] on a history that holds a sample. *)
Module ZeroDt.

Import VehiclePIDController.

Lemma non_empty_ends (l : list float) :
  l <> [] -> exists older prev, l = older ++ [prev].
Proof.
  intros H. destruct (exists_last H) as (older & prev & E).
  exists older, prev. exact E.
Qed.

Lemma lon_history current_speed target_speed (c : Lon.t) :
  (Lon._dt c =? 0)%float = true ->
  Lon._error_buffer c <> [] ->
  fst (Lon.run_step current_speed target_speed c) = Raise ZeroDivisionError.
Proof.
  intros D N. destruct (non_empty_ends _ N) as (older & prev & E).
  unfold Lon.run_step, Lon._pid_control, bind, modify, get.
  cbn [Lon._error_buffer Lon._dt Lon.set_buffer]. rewrite E.
  destruct (LonStep.append_ends (target_speed - current_speed)%float prev older) as [l ->].
  rewrite LonStep.estimates_ends, D. reflexivity.
Qed.

Lemma lon_empty current_speed target_speed (c : Lon.t) :
  Lon._error_buffer c = [] ->
  exists throttle, fst (Lon.run_step current_speed target_speed c) = Return throttle.
Proof.
  intros E. eexists.
  unfold Lon.run_step, Lon._pid_control, bind, modify, get.
  rewrite E. reflexivity.
Qed.

Lemma lat_zero_dt lm vehicle_location waypoint (c : Lat.t) :
  (Lat._dt c =? 0)%float = true ->
  (Lat._e_buffer c = [] ->
   fst (Lat.run_step lm vehicle_location waypoint c) <> Raise ZeroDivisionError)
  /\ (Lat._e_buffer c <> [] ->
      fst (Lat.run_step lm vehicle_location waypoint c) = Raise ZeroDivisionError
      \/ fst (Lat.run_step lm vehicle_location waypoint c) = Raise ValueError).
Proof.
  intros D.
  destruct vehicle_location as [[vx vy] heading], waypoint as [w0 w1].
  unfold Lat.run_step, Lat._pid_control, math_cos, math_sin, math_acos, bind.
  pose proof (RaiseFacts.math_1_raises (c_cos lm) heading c) as R1.
  pure_case (math_1 (c_cos lm) heading c) (math_1_state (c_cos lm) heading c);
    [|rewrite (R1 _ eq_refl); split; intros _; [discriminate | right; reflexivity]].
  pose proof (RaiseFacts.math_1_raises (c_sin lm) heading c) as R2.
  pure_case (math_1 (c_sin lm) heading c) (math_1_state (c_sin lm) heading c);
    [|rewrite (R2 _ eq_refl); split; intros _; [discriminate | right; reflexivity]].
  match goal with |- context [math_1 (c_acos lm) ?a c] =>
    pose proof (RaiseFacts.math_1_raises (c_acos lm) a c) as R3;
    pure_case (math_1 (c_acos lm) a c) (math_1_state (c_acos lm) a c);
      [|rewrite (R3 _ eq_refl); split; intros _; [discriminate | right; reflexivity]]
  end.
  unfold modify, get.
  cbn [Lat._e_buffer Lat._dt Lat.set_buffer Lat.set_log].
  split.
  - intros E. rewrite E. discriminate.
  - intros N. destruct (non_empty_ends _ N) as (older & prev & E). rewrite E.
    match goal with |- context [Deque.append ?d (older ++ [prev])] =>
      destruct (LonStep.append_ends d prev older) as [l ->]
    end.
    rewrite LonStep.estimates_ends, D. left; reflexivity.
Qed.

Lemma lat_non_zero_dt lm vehicle_location waypoint (c : Lat.t) :
  (Lat._dt c =? 0)%float = false ->
  fst (Lat.run_step lm vehicle_location waypoint c) <> Raise ZeroDivisionError.
Proof.
  intros D R.
  destruct (RaiseFacts.lat_raises lm vehicle_location waypoint c _ R) as [F|[_ F]].
  - discriminate F.
  - rewrite D in F. discriminate F.
Qed.

End ZeroDt.

(** C5, as the specification states it, fails: a configuration with
    [output_min > output_max] and [dt = 0] is invalid, and both
    constructors and [change_parameters] accept it. *)
Lemma C5_counterexample :
  let a := {| K_P := Some 1; K_D := Some 0; K_I := Some 0;
              output_max := Some 0; output_min := Some 1; dt := Some 0 |}%float in
  invalid_configuration 1 0 0 = true
  /\ PIDLongitudinalController.__init__ a
     = Return (PIDLongitudinalController.mk 1 0 0 0 1 0 [])
  /\ PIDLateralController.__init__ a
     = Return (PIDLateralController.mk 1 0 0 0 1 0 [] [])
  /\ PIDLongitudinalController.change_parameters 1 0 0 0 Scenario.lon0
     = (Return tt, PIDLongitudinalController.mk 1 0 0 1 0 0 []).
Proof. vm_compute. repeat split. Qed.

(** C5 (amended): no configuration is rejected at configuration time.  The
    two constructors return a controller that stores the given values
    unchanged (the constructor's default for an absent key) with an empty
    history, and [change_parameters] replaces [K_P], [K_I], [K_D] and [dt]
    by the given values, whatever they are.  A zero [dt] surfaces only
    later, as the [ZeroDivisionError] of a control tick that finds an
    earlier sample in the history buffer.  With [dt = 0]: a tick of the
    longitudinal controller on an empty buffer returns normally and its
    next tick raises; every longitudinal tick on a non-empty buffer raises,
    so the first one after [change_parameters] has set [dt = 0] on a
    controller with history; a lateral tick on an empty buffer does not
    raise [ZeroDivisionError], and one on a non-empty buffer raises it
    unless the [ValueError] of a [math] domain error comes first.  With a
    non-zero [dt] the longitudinal controller always returns and the
    lateral one never raises [ZeroDivisionError]. *)
Theorem C5_configuration_accepted (a : pid_args) :
  PIDLongitudinalController.__init__ a
  = Return (PIDLongitudinalController.mk
              (default 1%float (K_P a)) (default 0%float (K_D a))
              (default 0%float (K_I a)) (default 1%float (output_max a))
              (default 0%float (output_min a)) (default 0.1%float (dt a)) [])
  /\ PIDLateralController.__init__ a
     = Return (PIDLateralController.mk
                 (default 0.2%float (K_P a)) (default 0%float (K_D a))
                 (default 0%float (K_I a)) (default 1%float (output_max a))
                 (default (-1)%float (output_min a)) (default 0.1%float (dt a)) [] [])
  /\ (forall kp ki kd dt' c,
        PIDLongitudinalController.change_parameters kp ki kd dt' c
        = (Return tt,
           PIDLongitudinalController.mk kp kd ki
             (PIDLongitudinalController._output_max c)
             (PIDLongitudinalController._output_min c) dt'
             (PIDLongitudinalController._error_buffer c)))
  /\ (forall kp ki kd dt' c,
        PIDLateralController.change_parameters kp ki kd dt' c
        = (Return tt,
           PIDLateralController.mk kp kd ki
             (PIDLateralController._output_max c)
             (PIDLateralController._output_min c) dt'
             (PIDLateralController._e_buffer c) (PIDLateralController.lat_error c)))
  /\ (forall c current1 target1 current2 target2,
        (PIDLongitudinalController._dt c =? 0)%float = true ->
        PIDLongitudinalController._error_buffer c = [] ->
        let first := PIDLongitudinalController.run_step current1 target1 c in
        (exists throttle, fst first = Return throttle)
        /\ fst (PIDLongitudinalController.run_step current2 target2 (snd first))
           = Raise ZeroDivisionError)
  /\ (forall c current_speed target_speed,
        (PIDLongitudinalController._dt c =? 0)%float = true ->
        PIDLongitudinalController._error_buffer c <> [] ->
        fst (PIDLongitudinalController.run_step current_speed target_speed c)
        = Raise ZeroDivisionError)
  /\ (forall kp ki kd c current_speed target_speed,
        PIDLongitudinalController._error_buffer c <> [] ->
        fst (PIDLongitudinalController.run_step current_speed target_speed
               (snd (PIDLongitudinalController.change_parameters kp ki kd 0 c)))
        = Raise ZeroDivisionError)
  /\ (forall lm c vehicle_location waypoint,
        (PIDLateralController._dt c =? 0)%float = true ->
        let steer := fst (PIDLateralController.run_step lm vehicle_location waypoint c) in
        (PIDLateralController._e_buffer c = [] -> steer <> Raise ZeroDivisionError)
        /\ (PIDLateralController._e_buffer c <> [] ->
            steer = Raise ZeroDivisionError \/ steer = Raise ValueError))
  /\ (forall c current_speed target_speed,
        (PIDLongitudinalController._dt c =? 0)%float = false ->
        exists throttle,
          fst (PIDLongitudinalController.run_step current_speed target_speed c)
          = Return throttle)
  /\ (forall lm c vehicle_location waypoint,
        (PIDLateralController._dt c =? 0)%float = false ->
        fst (PIDLateralController.run_step lm vehicle_location waypoint c)
        <> Raise ZeroDivisionError).
Proof.
  do 4 (split; [reflexivity|]).
  split; [|split; [|split; [|split; [|split]]]].
  - intros c current1 target1 current2 target2 H H0 first. split.
    + apply ZeroDt.lon_empty. exact H0.
    + apply ZeroDt.lon_history.
      * unfold first. rewrite LonFacts.run_step_state. exact H.
      * unfold first. rewrite LonFacts.run_step_state, H0. discriminate.
  - intros c current_speed target_speed D N. apply ZeroDt.lon_history; assumption.
  - intros kp ki kd c current_speed target_speed N.
    apply ZeroDt.lon_history; [reflexivity | exact N].
  - intros lm c vehicle_location waypoint D steer.
    apply ZeroDt.lat_zero_dt. exact D.
  - intros c current_speed target_speed D. apply OverrideFacts.lon_returns. exact D.
  - intros lm c vehicle_location waypoint D. apply ZeroDt.lat_non_zero_dt. exact D.
Qed.

Lemma C5_witness :
  fst (PIDLongitudinalController.run_step 0 1
         (snd (PIDLongitudinalController.run_step 0 1
                 (PIDLongitudinalController.mk 1 0 0 1 0 0 []))))
  = Raise ZeroDivisionError
  /\ fst (PIDLongitudinalController.run_step 0 1
            (snd (PIDLongitudinalController.change_parameters 1 0 0 0
                    (PIDLongitudinalController.mk 1 0 0 1 0 0.1 [5%float]))))
     = Raise ZeroDivisionError.
Proof.
  destruct (C5_configuration_accepted
              {| K_P := None; K_D := None; K_I := None;
                 output_max := None; output_min := None; dt := None |})
    as (_ & _ & _ & _ & H & _ & K & _).
  split.
  - apply (H (PIDLongitudinalController.mk 1 0 0 1 0 0 []) 0%float 1%float 0%float 1%float);
      reflexivity.
  - apply (K 1%float 0%float 0%float (PIDLongitudinalController.mk 1 0 0 1 0 0.1 [5%float])).
    discriminate.
Defined.
